(** * Chain-swap claim service: a shallow embedding

    The two [ChainToChainSwapService] classes of the repository (the
    Bitcoin-side claimer and the confidential-chain claimer) are embedded as
    functions in a small monad that threads the observable world and
    propagates JavaScript exceptions.  The REST service, the websocket
    transport and the cryptography libraries are collaborators: their answers
    are read from an environment record, their invocations are recorded in a
    trace.

    Conventions.
    - [console.log] and [console.error] output is not part of the model.
    - A hex string and the [Buffer] decoded from it are the same [bytes].
    - [await] is sequencing: one message is handled to completion before the
      next one is delivered.
    - The arithmetic of [calculateLockupSend] is done on IEEE 754 doubles,
      as the kernel's primitive floats compute them. *)

From Stdlib Require Import List ZArith QArith Qround String Ascii Bool Lia.
From Stdlib Require Import Strings.Byte.
From Stdlib Require Import RelationClasses.
From Stdlib Require PrimFloat SpecFloat FloatOps.
Import ListNotations.
Close Scope Q_scope.
Open Scope Z_scope.
Open Scope string_scope.
Open Scope list_scope.

Set Implicit Arguments.

(* ------------------------------------------------------------------ *)
(** ** Data *)

Definition bytes := list byte.

Definition bytes_eqb (a b : bytes) : bool :=
  if list_eq_dec Byte.byte_eq_dec a b then true else false.

(** [enum ChainSwapTransactionStatus] *)
Inductive ChainSwapTransactionStatus : Set :=
| CREATED
| LOCKUP_PENDING
| LOCKUP_CONFIRMED
| CLAIM_PENDING
| CLAIM_CONFIRMED
| LOCKUP_FAILED
| CLAIM_FAILED.

(** The numeric value the enum gives each member. *)
Definition statusValue (s : ChainSwapTransactionStatus) : Z :=
  match s with
  | CREATED => 0
  | LOCKUP_PENDING => 1
  | LOCKUP_CONFIRMED => 2
  | CLAIM_PENDING => 3
  | CLAIM_CONFIRMED => 4
  | LOCKUP_FAILED => 5
  | CLAIM_FAILED => 6
  end.

(** A JavaScript number, as far as the service computes one: a whole number
    (the two zeros are not told apart), or one of the three values that are
    not finite. *)
Inductive JsNumber :=
| Int (z : Z)
| Infinity
| NegInfinity
| NaN.

Coercion Int : Z >-> JsNumber.

(** [interface WithdrawChainSwapTransaction].  The confidential-chain class
    declares the first nine fields only; it never reads the last three. *)
Record WithdrawChainSwapTransaction := {
  id : Z;
  swapId : string;
  userAddress : string;
  claimPublicKey : bytes;
  claimSwapTree : string;
  claimBlindingKey : bytes;
  lockupPublicKey : bytes;
  lockupSwapTree : string;
  preimage : bytes;
  minerFees : JsNumber;
  boltzFee : JsNumber;
  feeRate : Q
}.

(** A message pushed by the websocket: [{event, args: [{id, status,
    transaction?: {id?, hex?}}]}].  A [Message] is a value whose fields can
    be read, which is every value [JSON.parse] returns but [null]: a field
    that is missing, or that a number, a string or an array does not have,
    reads as [undefined], here [None]. *)
Record TransactionInfo := {
  tx_id : option string;
  tx_hex : option string
}.

Record UpdateArg := {
  arg_id : string;
  arg_status : string;
  arg_transaction : option TransactionInfo
}.

Record Message := {
  event : option string;
  args : option (list UpdateArg)
}.

(** What [JSON.parse] returns and the message stream publishes: [null], on
    which no field can be read, or a value with fields. *)
Inductive Parsed :=
| JsonNull
| JsonValue (msg : Message).

(** Transactions, as far as the service looks into them. *)
Record TxOutput := {
  value : Z;
  script : bytes
}.

Record TxInput := {
  hash : bytes;
  index : nat;
  witness : list bytes
}.

Record Transaction := {
  ins : list TxInput;
  outs : list TxOutput
}.

(** What [detectSwap] returns: the matching output together with its
    position. *)
Record SwapOutput := {
  vout : nat;
  so_value : Z;
  so_script : bytes
}.

(** The calls the service makes on a [Musig] object. *)
Inductive MusigCall :=
| TweakMusig (tree : bytes)
| GetPublicNonce
| AggregateNonces (nonces : list (bytes * bytes))
| InitializeSession (sighash : bytes)
| AddPartial (publicKey partialSignature : bytes)
| SignPartial
| AggregatePartials.

(** A [Musig] object: what it was constructed with and what has been called
    on it so far. *)
Record Musig := {
  mid : nat;
  seed : bytes;
  publicKeys : list bytes;
  called : list MusigCall
}.

(** [CreateChainSwapDto] and the parts of [ChainSwapResponseDto] that are
    read. *)
Record CreateChainSwapDto := {
  from : string;
  to : string;
  userLockAmount : JsNumber;
  dto_userAddress : string;
  refundPublicKey : bytes;
  dto_claimPublicKey : bytes;
  preimageHash : bytes
}.

Record ChainSwapDataDto := {
  swapTree : string;
  serverPublicKey : bytes;
  blindingKey : bytes
}.

Record ChainSwapResponseDto := {
  cs_id : string;
  lockupDetails : ChainSwapDataDto;
  claimDetails : ChainSwapDataDto
}.

(** [swapPairs["L-BTC"]["BTC"].fees] *)
Record Fees := {
  percentage : Q;
  minerFees_server : Z;
  minerFees_user_claim : Z
}.

(* ------------------------------------------------------------------ *)
(** ** The world and its trace *)

Inductive Effect :=
| EUpdateStatus (entityId : Z) (s : ChainSwapTransactionStatus)
                (lockupTransactionHash : option string)
| ESubscribe (channel : string) (ids : list string)
| EUnsubscribe (channel : string) (ids : list string)
| EWsSend (op channel : string) (ids : list string)
| EListen (swap : string)
| ENewMusig (m : nat) (nonceSeed : bytes) (keys : list bytes)
| EMusig (m : nat) (c : MusigCall)
| EGetNetworkFee (currency : string)
| EGetChainSwapFee
| ECreateChainSwap (dto : CreateChainSwapDto)
| EGetClaimDetails (endpoint swap : string)
| EClaimChainSwap (swap : string) (preimageHex partialSignature pubNonce : bytes)
                  (toSignIndex : nat) (toSign : Transaction) (toSignNonce : bytes)
| EClaimBTC (tx : Transaction).

(** [status] is what the mock [updateChainSwapStatus] stands for: the status
    column of the tracked entity.  [wsOpen] is
    [isConnected && readyState === OPEN] of the websocket client.  [rng] is
    the operating system's entropy: the [k]-th call of [randomBytes] reads
    the bytes [rng k 0], [rng k 1], ... *)
Record World := mkWorld {
  status : ChainSwapTransactionStatus;
  wsOpen : bool;
  rng : nat -> nat -> byte;
  draws : nat;
  sessions : nat;
  trace : list Effect
}.

(* ------------------------------------------------------------------ *)
(** ** A state monad that keeps the world when an exception is thrown *)

Inductive Result (A : Type) :=
| Ok (a : A)
| Throw (e : string).
Arguments Ok {A} a.
Arguments Throw {A} e.

Definition M (A : Type) := World -> Result A * World.

Definition ret {A} (a : A) : M A := fun w => (Ok a, w).

Definition bind {A B} (m : M A) (k : A -> M B) : M B :=
  fun w =>
    match m w with
    | (Ok a, w') => k a w'
    | (Throw e, w') => (Throw e, w')
    end.

Definition throw {A} (e : string) : M A := fun w => (Throw e, w).

(** [try { m } catch (e) { h e }] *)
Definition tryCatch {A} (m : M A) (h : string -> M A) : M A :=
  fun w =>
    match m w with
    | (Ok a, w') => (Ok a, w')
    | (Throw e, w') => h e w'
    end.

Declare Scope js_scope.
Delimit Scope js_scope with js.
Notation "x <- m ;; k" := (bind m (fun x => k))
  (at level 61, m at next level, right associativity) : js_scope.
Notation "' pat <- m ;; k" := (bind m (fun x => match x with pat => k end))
  (at level 61, pat pattern, m at next level, right associativity) : js_scope.
Notation "m ;; k" := (bind m (fun _ => k))
  (at level 61, right associativity) : js_scope.
Open Scope js_scope.

Definition emit (e : Effect) : M unit :=
  fun w => (Ok tt, mkWorld (status w) (wsOpen w) (rng w) (draws w) (sessions w)
                           (trace w ++ [e])).

Definition setStatus (s : ChainSwapTransactionStatus) : M unit :=
  fun w => (Ok tt, mkWorld s (wsOpen w) (rng w) (draws w) (sessions w) (trace w)).

Definition isOpen : M bool := fun w => (Ok (wsOpen w), w).

(** A call into a library or to the remote service: its answer is [Some] or
    it throws. *)
Definition orThrow {A} (what : string) (o : option A) : M A :=
  match o with
  | Some a => ret a
  | None => throw what
  end.

(** The [n] bytes the [k]-th draw of an entropy source gives. *)
Definition drawn (source : nat -> nat -> byte) (k n : nat) : bytes :=
  map (source k) (seq 0 n).

(** [crypto.randomBytes(n)] *)
Definition randomBytes (n : nat) : M bytes :=
  fun w => (Ok (drawn (rng w) (draws w) n),
            mkWorld (status w) (wsOpen w) (rng w) (S (draws w)) (sessions w) (trace w)).

Definition nextSession : M nat :=
  fun w => (Ok (sessions w),
            mkWorld (status w) (wsOpen w) (rng w) (draws w) (S (sessions w)) (trace w)).

(* ------------------------------------------------------------------ *)
(** ** Collaborators *)

(** The answers of everything the service calls but does not implement: the
    key pair made in [initialize], bitcoinjs-lib and liquidjs-lib, boltz-core
    and the REST client.  [None] is a thrown exception. *)
Record Env := {
  keyPair_publicKey : bytes;
  (* bitcoinjs-lib, liquidjs-lib *)
  Transaction_fromHex : string -> option Transaction;
  getHash : Transaction -> bytes;
  toOutputScript : string -> option bytes;
  fromConfidential_blindingKey : string -> option bytes;
  hashForWitnessV1 : Transaction -> nat -> list bytes -> list Z -> option bytes;
  sha256 : bytes -> bytes;
  (* boltz-core *)
  deserializeSwapTree : string -> option bytes;
  musigAnswer : Musig -> MusigCall -> option bytes;
  settleFee : Q -> (Z -> option Transaction) -> option Z;
  (* BoltzClient *)
  getNetworkFee : string -> option Q;
  getChainSwapFee : option Fees;
  createChainSwap : CreateChainSwapDto -> option (option ChainSwapResponseDto);
  getChainSwapClaimDetails : string -> option (bytes * bytes);
  getSwapClaimDetails : string -> option (bytes * bytes);
  claimChainSwap : string -> bytes -> bytes -> bytes -> nat -> Transaction ->
                   bytes -> option (bytes * bytes);
  claimBTC : Transaction -> option string
}.

(** The two service classes. *)
Inductive Service := BitcoinClaimer | LiquidClaimer.

(** *** BoltzWebsocketClient *)

Definition subscribe (channel : string) (ids : list string) : M unit :=
  emit (ESubscribe channel ids);;
  open <- isOpen;;
  if open then emit (EWsSend "subscribe" channel ids) else ret tt.

Definition unsubscribe (channel : string) (ids : list string) : M unit :=
  emit (EUnsubscribe channel ids);;
  open <- isOpen;;
  if open then emit (EWsSend "unsubscribe" channel ids) else ret tt.

(** *** Musig *)

(** [new Musig(zkp, keyPair, randomBytes(32), keys)] *)
Definition newMusig (keys : list bytes) : M Musig :=
  nonceSeed <- randomBytes 32;;
  n <- nextSession;;
  emit (ENewMusig n nonceSeed keys);;
  ret {| mid := n; seed := nonceSeed; publicKeys := keys; called := [] |}.

(** A method call on a [Musig] object: the library answers or throws; the
    object remembers the call. *)
Definition musigCall (env : Env) (m : Musig) (c : MusigCall) : M (bytes * Musig) :=
  emit (EMusig (mid m) c);;
  r <- orThrow "Musig" (musigAnswer env m c);;
  ret (r, {| mid := mid m; seed := seed m; publicKeys := publicKeys m;
             called := called m ++ [c] |}).

(** *** boltz-core: detection and construction *)

(** The key a version-1 witness program of 32 bytes carries: [OP_1],
    a push of 32 bytes, the key. *)
Definition embeddedKey (s : bytes) : option bytes :=
  match s with
  | x51 :: x20 :: k => if (List.length k =? 32)%nat then Some k else None
  | _ => None
  end.

Definition matchesKey (tweakedKey : bytes) (o : TxOutput) : bool :=
  match embeddedKey (script o) with
  | Some k => bytes_eqb k tweakedKey
  | None => false
  end.

Fixpoint detectSwapFrom (tweakedKey : bytes) (n : nat) (os : list TxOutput)
  : option SwapOutput :=
  match os with
  | [] => None
  | o :: rest =>
      if matchesKey tweakedKey o
      then Some {| vout := n; so_value := value o; so_script := script o |}
      else detectSwapFrom tweakedKey (S n) rest
  end.

(** Modelled from the spec: boltz-core's [detectSwap] is a library function
    outside the sources.  It scans every output for a Taproot-style output
    whose embedded 32-byte key equals the tweaked key, byte for byte, and
    returns the first match, or nothing.  (The manual check in
    [testDetectSwap] of the sources tests the same three conditions.) *)
Definition detectSwap (tweakedKey : bytes) (tx : Transaction) : option SwapOutput :=
  detectSwapFrom tweakedKey 0 (outs tx).

(** The placeholder a cooperative input carries until it is signed. *)
Definition dummyTaprootSignature : bytes := repeat x00 64.

(** Modelled from the spec: boltz-core's [constructClaimTransaction] is a
    library function outside the sources.  It builds a single-input,
    single-output transaction (plus a fee output on the confidential chain)
    that spends the detected output to the destination; the output carries
    the input's value less the fee; a value that is not positive after the
    fee is a fatal error.  The cooperative input carries a placeholder
    witness. *)
Definition constructClaimTransaction (v : Service) (o : SwapOutput) (txHash : bytes)
    (destinationScript : bytes) (fee : Z) : option Transaction :=
  if (so_value o - fee <=? 0)%Z then None
  else Some {| ins := [ {| hash := txHash; index := vout o;
                           witness := [dummyTaprootSignature] |} ];
               outs := {| value := so_value o - fee; script := destinationScript |}
                       :: match v with
                          | BitcoinClaimer => []
                          | LiquidClaimer => [ {| value := fee; script := [] |} ]
                          end |}.

(** Modelled from the spec: boltz-core's [targetFee] is a library function
    outside the sources.  It settles on a fee for the given rate by
    measuring transactions the callback constructs ([settleFee], which may
    fail), and returns the callback's transaction at that fee. *)
Definition targetFee (env : Env) (satPerVbyte : Q)
    (constructTx : Z -> option Transaction) : M Transaction :=
  fee <- orThrow "targetFee" (settleFee env satPerVbyte constructTx);;
  orThrow "constructClaimTransaction" (constructTx fee).

(* ------------------------------------------------------------------ *)
(** ** The claim pipeline *)

(** What [createClaimTransaction] returns. *)
Record ClaimTransactionDetails := {
  cd_musig : Musig;
  cd_transaction : Transaction;
  cd_swapOutput : SwapOutput;
  cd_boltzPublicKey : bytes
}.

(** [updateChainSwapStatus] (a mock in the sources: it prints the status). *)
Definition updateChainSwapStatus (entityId : Z) (s : ChainSwapTransactionStatus)
    (lockupTransactionHash : option string) : M unit :=
  emit (EUpdateStatus entityId s lockupTransactionHash);;
  setStatus s.

Definition finishChainSwap (chainSwapEntity : WithdrawChainSwapTransaction)
    (userId : string) (amount : Z) : M unit :=
  updateChainSwapStatus (id chainSwapEntity) CLAIM_CONFIRMED None.

Definition createClaimTransaction (v : Service) (env : Env) (preimage : bytes)
    (swapEntity : WithdrawChainSwapTransaction)
    (lockupTransactionHex : option string) : M ClaimTransactionDetails :=
  let boltzPublicKey := claimPublicKey swapEntity in
  musig <- newMusig [boltzPublicKey; keyPair_publicKey env];;
  tree <- orThrow "deserializeSwapTree"
            (deserializeSwapTree env (claimSwapTree swapEntity));;
  '(tweakedKey, musig) <- musigCall env musig (TweakMusig tree);;
  lockupTx <- orThrow "Transaction.fromHex"
                (match lockupTransactionHex with
                 | Some h => Transaction_fromHex env h
                 | None => None
                 end);;
  match detectSwap tweakedKey lockupTx with
  | None => throw "No swap output found in lockup transaction"
  | Some swapOutput =>
      transaction <-
        targetFee env
          (match v with
           | BitcoinClaimer => feeRate swapEntity
           | LiquidClaimer => 2%Q
           end)
          (fun fee =>
             match toOutputScript env (userAddress swapEntity) with
             | None => None
             | Some destinationScript =>
                 match v with
                 | BitcoinClaimer =>
                     constructClaimTransaction v swapOutput (getHash env lockupTx)
                       destinationScript fee
                 | LiquidClaimer =>
                     match fromConfidential_blindingKey env (userAddress swapEntity) with
                     | None => None
                     | Some _ =>
                         constructClaimTransaction v swapOutput (getHash env lockupTx)
                           destinationScript fee
                     end
                 end
             end);;
      ret {| cd_musig := musig; cd_transaction := transaction;
             cd_swapOutput := swapOutput; cd_boltzPublicKey := boltzPublicKey |}
  end.

Definition getBoltzPartialSignature (v : Service) (env : Env) (preimage : bytes)
    (swapEntity : WithdrawChainSwapTransaction) (claimPubNonce : bytes)
    (claimTransaction : Transaction) : M (bytes * bytes) :=
  serverClaimDetails <-
    match v with
    | BitcoinClaimer =>
        emit (EGetClaimDetails "chain" (swapId swapEntity));;
        orThrow "getChainSwapClaimDetails"
          (getChainSwapClaimDetails env (swapId swapEntity))
    | LiquidClaimer =>
        emit (EGetClaimDetails "submarine" (swapId swapEntity));;
        orThrow "getSwapClaimDetails" (getSwapClaimDetails env (swapId swapEntity))
    end;;
  let '(serverPubNonce, transactionHash) := serverClaimDetails in
  let boltzPublicKey := lockupPublicKey swapEntity in
  musig <- newMusig [boltzPublicKey; keyPair_publicKey env];;
  tree <- orThrow "deserializeSwapTree"
            (deserializeSwapTree env (lockupSwapTree swapEntity));;
  '(_, musig) <- musigCall env musig (TweakMusig tree);;
  '(_, musig) <- musigCall env musig (AggregateNonces [(boltzPublicKey, serverPubNonce)]);;
  '(_, musig) <- musigCall env musig (InitializeSession transactionHash);;
  '(partialSig, musig) <- musigCall env musig SignPartial;;
  '(pubNonce, musig) <- musigCall env musig GetPublicNonce;;
  emit (EClaimChainSwap (swapId swapEntity) preimage partialSig pubNonce 0%nat
          claimTransaction claimPubNonce);;
  ourClaimDetails <-
    orThrow "claimChainSwap"
      (claimChainSwap env (swapId swapEntity) preimage partialSig pubNonce 0%nat
         claimTransaction claimPubNonce);;
  ret ourClaimDetails.

(** [transaction.ins[0].witness = w] *)
Definition setWitness0 (tx : Transaction) (w : list bytes) : M Transaction :=
  match ins tx with
  | [] => throw "TypeError"
  | i :: rest =>
      ret {| ins := {| hash := hash i; index := index i; witness := w |} :: rest;
             outs := outs tx |}
  end.

Definition performChainSwapClaim (env : Env) (claimDetails : ClaimTransactionDetails)
    (chainSwapEntity : WithdrawChainSwapTransaction)
    (boltzPartialSig : bytes * bytes) : M unit :=
  let '(pubNonce, partialSignature) := boltzPartialSig in
  '(_, musig) <- musigCall env (cd_musig claimDetails)
                   (AggregateNonces [(cd_boltzPublicKey claimDetails, pubNonce)]);;
  sighash <- orThrow "hashForWitnessV1"
               (hashForWitnessV1 env (cd_transaction claimDetails) 0
                  [so_script (cd_swapOutput claimDetails)]
                  [so_value (cd_swapOutput claimDetails)]);;
  '(_, musig) <- musigCall env musig (InitializeSession sighash);;
  '(_, musig) <- musigCall env musig
                   (AddPartial (cd_boltzPublicKey claimDetails) partialSignature);;
  '(_, musig) <- musigCall env musig SignPartial;;
  '(signature, musig) <- musigCall env musig AggregatePartials;;
  transaction <- setWitness0 (cd_transaction claimDetails) [signature];;
  emit (EClaimBTC transaction);;
  _ <- orThrow "claimBTC" (claimBTC env transaction);;
  ret tt.

(** The three awaited steps that both classes run between [try] and
    [catch]. *)
Definition claimSteps (v : Service) (env : Env)
    (chainSwapEntity : WithdrawChainSwapTransaction)
    (transactionHex : option string) : M unit :=
  let preimageBuffer := preimage chainSwapEntity in
  claimTransactionDetails <-
    createClaimTransaction v env preimageBuffer chainSwapEntity transactionHex;;
  '(claimPubNonce, musig) <-
    musigCall env (cd_musig claimTransactionDetails) GetPublicNonce;;
  boltzPartialSignature <-
    getBoltzPartialSignature v env preimageBuffer chainSwapEntity claimPubNonce
      (cd_transaction claimTransactionDetails);;
  performChainSwapClaim env
    {| cd_musig := musig;
       cd_transaction := cd_transaction claimTransactionDetails;
       cd_swapOutput := cd_swapOutput claimTransactionDetails;
       cd_boltzPublicKey := cd_boltzPublicKey claimTransactionDetails |}
    chainSwapEntity boltzPartialSignature.

(* ------------------------------------------------------------------ *)
(** ** Reading a message *)

(** [msg.event !== "update"] *)
Definition notUpdate (msg : Message) : bool :=
  match event msg with
  | Some e => negb (e =? "update")
  | None => true
  end.

(** [msg.args[0]], when [msg.args] and [msg.args[0]] are truthy. *)
Definition firstArg (msg : Message) : option UpdateArg :=
  match args msg with
  | Some (a :: _) => Some a
  | _ => None
  end.

(** [msg.args[0].transaction?.id] and [msg.args[0].transaction?.hex] *)
Definition transactionId (a : UpdateArg) : option string :=
  match arg_transaction a with
  | Some t => tx_id t
  | None => None
  end.

Definition transactionHex (a : UpdateArg) : option string :=
  match arg_transaction a with
  | Some t => tx_hex t
  | None => None
  end.

(* ------------------------------------------------------------------ *)
(** ** Numbers *)

(** The numbers of JavaScript are IEEE 754 doubles; [+], [-] and [/] round
    to the nearest double, ties to even. *)
Definition double := PrimFloat.float.

(** The double nearest to a whole number: the number itself up to 2^53. *)
Definition doubleOfZ (z : Z) : double :=
  FloatOps.SF2Prim
    (SpecFloat.binary_normalize FloatOps.prec FloatOps.emax z 0 false).

(** The double nearest to a fraction, which is what [JSON.parse] makes of
    a decimal numeral.  The quotient is taken to at least 64 bits, with one
    more bit that tells whether anything was left over, and then rounded
    once. *)
Definition doubleOfQ (q : Q) : double :=
  let n := Qnum q in
  let d := Z.pos (Qden q) in
  let k := Z.max 0 (Z.log2 d - Z.log2 (Z.abs n) + 64) in
  let scaled := Z.abs n * 2 ^ k in
  let sticky := if (scaled mod d =? 0)%Z then 0 else 1 in
  let m := 2 * (scaled / d) + sticky in
  FloatOps.SF2Prim
    (SpecFloat.binary_normalize FloatOps.prec FloatOps.emax
       (if (n <? 0)%Z then - m else m) (- k - 1) false).

Definition doubleOf (n : JsNumber) : double :=
  match n with
  | Int z => doubleOfZ z
  | Infinity => PrimFloat.infinity
  | NegInfinity => PrimFloat.neg_infinity
  | NaN => PrimFloat.nan
  end.

(** [Math.ceil]: the least whole number that is not below a finite double
    [(-1)^s * m * 2^e]; a double that is not finite is returned as it is. *)
Definition Math_ceil (x : double) : JsNumber :=
  match FloatOps.Prim2SF x with
  | SpecFloat.S754_zero _ => Int 0
  | SpecFloat.S754_infinity false => Infinity
  | SpecFloat.S754_infinity true => NegInfinity
  | SpecFloat.S754_nan => NaN
  | SpecFloat.S754_finite s m e =>
      let n := if s then Z.neg m else Z.pos m in
      Int (if (0 <=? e)%Z then n * 2 ^ e else - ((- n) / 2 ^ (- e)))
  end.

(** [a + b] and [a - b] on whole numbers: the sum and the difference of two
    whole doubles are whole (or not finite), so reading the result with
    [Math_ceil] changes nothing. *)
Definition jsAdd (a b : JsNumber) : JsNumber :=
  Math_ceil (PrimFloat.add (doubleOf a) (doubleOf b)).

Definition jsSub (a b : JsNumber) : JsNumber :=
  Math_ceil (PrimFloat.sub (doubleOf a) (doubleOf b)).

(** [calculateLockupSend] returns these. *)
Record SendParams := {
  lockupAmount : JsNumber;
  sp_minerFees : JsNumber;
  sp_boltzFee : JsNumber;
  sp_feeRate : Q
}.

(** [Math.ceil((amount + minerFees) / (1 - boltzFeePercentage / 100))] *)
Definition lockupAmountFor (amount : Z) (minerFees : JsNumber)
    (boltzFeePercentage : Q) : JsNumber :=
  Math_ceil
    (PrimFloat.div
       (PrimFloat.add (doubleOfZ amount) (doubleOf minerFees))
       (PrimFloat.sub (doubleOfZ 1)
          (PrimFloat.div (doubleOfQ boltzFeePercentage) (doubleOfZ 100)))).

#[global] Arguments jsAdd : simpl never.
#[global] Arguments jsSub : simpl never.
#[global] Arguments lockupAmountFor : simpl never.

(* ------------------------------------------------------------------ *)
(** ** The Bitcoin-side claimer *)

Module Btc.

Definition broadcastCoSignedClaimTransaction (env : Env)
    (chainSwapEntity : WithdrawChainSwapTransaction)
    (transactionHex : option string) (userId : string) : M unit :=
  tryCatch
    (claimSteps BitcoinClaimer env chainSwapEntity transactionHex)
    (fun claimError =>
       updateChainSwapStatus (id chainSwapEntity) CLAIM_FAILED None;;
       throw claimError).

(** The [switch (msg.args[0].status)] of the listener. *)
Definition dispatch (env : Env) (chainSwapEntity : WithdrawChainSwapTransaction)
    (userId : string) (a : UpdateArg) : M unit :=
  let s := arg_status a in
  if s =? "swap.created" then
    updateChainSwapStatus (id chainSwapEntity) LOCKUP_PENDING None
  else if s =? "transaction.lockup" then
    updateChainSwapStatus (id chainSwapEntity) LOCKUP_CONFIRMED (transactionId a)
  else if s =? "transaction.server.mempool" then
    updateChainSwapStatus (id chainSwapEntity) CLAIM_PENDING (transactionId a)
  else if s =? "transaction.server.confirmed" then
    broadcastCoSignedClaimTransaction env chainSwapEntity (transactionHex a) userId
  else if s =? "transaction.claimed" then
    updateChainSwapStatus (id chainSwapEntity) CLAIM_CONFIRMED None
  else if s =? "transaction.lockupFailed" then
    updateChainSwapStatus (id chainSwapEntity) LOCKUP_FAILED None;;
    unsubscribe "swap.update" [swapId chainSwapEntity]
  else if s =? "transaction.claimFailed" then
    updateChainSwapStatus (id chainSwapEntity) CLAIM_FAILED None;;
    unsubscribe "swap.update" [swapId chainSwapEntity]
  else if s =? "swap.expired" then
    updateChainSwapStatus (id chainSwapEntity) LOCKUP_FAILED None;;
    unsubscribe "swap.update" [swapId chainSwapEntity]
  else ret tt.

(** The listener [handleChainSwapStatusUpdates] subscribes to
    [onMessage()]. *)
Definition onMessage (env : Env) (chainSwapEntity : WithdrawChainSwapTransaction)
    (userId : string) (msg : Message) : M unit :=
  if notUpdate msg then ret tt
  else
    match firstArg msg with
    | None => ret tt
    | Some a =>
        if negb (arg_id a =? swapId chainSwapEntity) then ret tt
        else
          tryCatch
            (dispatch env chainSwapEntity userId a)
            (fun e =>
               updateChainSwapStatus (id chainSwapEntity) CLAIM_FAILED None;;
               unsubscribe "swap.update" [swapId chainSwapEntity])
    end.

Definition handleChainSwapStatusUpdates
    (chainSwapEntity : WithdrawChainSwapTransaction) (userId : string) : M unit :=
  emit (EListen (swapId chainSwapEntity)).

Definition calculateLockupSend (env : Env) (amount : Z) : M SendParams :=
  emit (EGetNetworkFee "BTC");;
  claimTxFeeRate <- orThrow "getNetworkFee" (getNetworkFee env "BTC");;
  emit EGetChainSwapFee;;
  fees <- orThrow "getChainSwapFee" (getChainSwapFee env);;
  let boltzFeePercentage := percentage fees in
  let serverFee := minerFees_server fees in
  let userClaimFee := minerFees_user_claim fees in
  let minerFees := jsAdd serverFee userClaimFee in
  let lockupAmount := lockupAmountFor amount minerFees boltzFeePercentage in
  let boltzFee := jsSub (jsSub lockupAmount amount) minerFees in
  ret {| lockupAmount := lockupAmount; sp_minerFees := minerFees;
         sp_boltzFee := boltzFee; sp_feeRate := claimTxFeeRate |}.

Definition startBoltzChainSwapWithListeners (env : Env) (userBtcAddress : string)
    (amount : Z) : M (ChainSwapResponseDto * WithdrawChainSwapTransaction) :=
  if (userBtcAddress =? "") || (amount <=? 0)%Z then
    throw "Invalid address or amount"
  else
    sendParams <- calculateLockupSend env amount;;
    preimage <- randomBytes 32;;
    let preimageHash := sha256 env preimage in
    let dto := {| from := "L-BTC"; to := "BTC";
                  userLockAmount := lockupAmount sendParams;
                  dto_userAddress := userBtcAddress;
                  refundPublicKey := keyPair_publicKey env;
                  dto_claimPublicKey := keyPair_publicKey env;
                  preimageHash := preimageHash |} in
    emit (ECreateChainSwap dto);;
    chainSwap <- orThrow "createChainSwap" (createChainSwap env dto);;
    match chainSwap with
    | None => throw "Error creating Chain Swap"
    | Some chainSwap =>
        if cs_id chainSwap =? "" then throw "Error creating Chain Swap"
        else
          let mockSwapEntity :=
            {| id := 1;
               swapId := cs_id chainSwap;
               userAddress := userBtcAddress;
               claimPublicKey := serverPublicKey (claimDetails chainSwap);
               claimSwapTree := swapTree (claimDetails chainSwap);
               claimBlindingKey := blindingKey (claimDetails chainSwap);
               lockupPublicKey := serverPublicKey (lockupDetails chainSwap);
               lockupSwapTree := swapTree (lockupDetails chainSwap);
               feeRate := sp_feeRate sendParams;
               boltzFee := sp_boltzFee sendParams;
               minerFees := sp_minerFees sendParams;
               preimage := preimage |} in
          subscribe "swap.update" [cs_id chainSwap];;
          handleChainSwapStatusUpdates mockSwapEntity "test-user-id";;
          ret (chainSwap, mockSwapEntity)
    end.

End Btc.

(* ------------------------------------------------------------------ *)
(** ** The confidential-chain claimer *)

Module Liquid.

(** [!msg.args[0].transaction?.hex] *)
Definition noHex (a : UpdateArg) : bool :=
  match transactionHex a with
  | Some h => h =? ""
  | None => true
  end.

Definition dispatch (env : Env) (chainSwapEntity : WithdrawChainSwapTransaction)
    (userId : string) (a : UpdateArg) : M unit :=
  let s := arg_status a in
  if s =? "swap.created" then
    updateChainSwapStatus (id chainSwapEntity) LOCKUP_PENDING None
  else if s =? "transaction.lockup" then
    updateChainSwapStatus (id chainSwapEntity) LOCKUP_CONFIRMED (transactionId a)
  else if s =? "transaction.server.mempool" then
    if noHex a then throw "No transaction hex provided in server mempool event"
    else
      tryCatch
        (claimSteps LiquidClaimer env chainSwapEntity (transactionHex a);;
         updateChainSwapStatus (id chainSwapEntity) CLAIM_PENDING None)
        (fun claimError => throw claimError)
  else if s =? "transaction.claimed" then
    finishChainSwap chainSwapEntity userId 0;;
    unsubscribe "swap.update" [swapId chainSwapEntity]
  else if s =? "transaction.lockupFailed" then
    updateChainSwapStatus (id chainSwapEntity) LOCKUP_FAILED None;;
    unsubscribe "swap.update" [swapId chainSwapEntity]
  else if s =? "transaction.claimFailed" then
    updateChainSwapStatus (id chainSwapEntity) CLAIM_FAILED None;;
    unsubscribe "swap.update" [swapId chainSwapEntity]
  else if s =? "swap.expired" then
    updateChainSwapStatus (id chainSwapEntity) LOCKUP_FAILED None;;
    unsubscribe "swap.update" [swapId chainSwapEntity]
  else ret tt.

Definition onMessage (env : Env) (chainSwapEntity : WithdrawChainSwapTransaction)
    (userId : string) (msg : Message) : M unit :=
  if notUpdate msg then ret tt
  else
    match firstArg msg with
    | None => ret tt
    | Some a =>
        if negb (arg_id a =? swapId chainSwapEntity) then ret tt
        else
          tryCatch
            (dispatch env chainSwapEntity userId a)
            (fun e =>
               updateChainSwapStatus (id chainSwapEntity) CLAIM_FAILED None;;
               unsubscribe "swap.update" [swapId chainSwapEntity])
    end.

Definition handleChainSwapStatusUpdates
    (chainSwapEntity : WithdrawChainSwapTransaction) (userId : string) : M unit :=
  emit (EListen (swapId chainSwapEntity)).

Definition startBoltzChainSwap (env : Env) (userBtcAddress : string) (amount : Z)
  : M ChainSwapResponseDto :=
  if (userBtcAddress =? "") || (amount <=? 0)%Z then
    throw "Invalid address or amount"
  else
    preimage <- randomBytes 32;;
    let preimageHash := sha256 env preimage in
    let dto := {| from := "L-BTC"; to := "BTC";
                  userLockAmount := amount;
                  dto_userAddress := userBtcAddress;
                  refundPublicKey := keyPair_publicKey env;
                  dto_claimPublicKey := keyPair_publicKey env;
                  preimageHash := preimageHash |} in
    emit (ECreateChainSwap dto);;
    chainSwap <- orThrow "createChainSwap" (createChainSwap env dto);;
    match chainSwap with
    | None => throw "Error creating Chain Swap"
    | Some chainSwap =>
        if cs_id chainSwap =? "" then throw "Error creating Chain Swap"
        else ret chainSwap
    end.

Definition startBoltzChainSwapWithListeners (env : Env) (userBtcAddress : string)
    (amount : Z) : M (ChainSwapResponseDto * WithdrawChainSwapTransaction) :=
  if (userBtcAddress =? "") || (amount <=? 0)%Z then
    throw "Invalid address or amount"
  else
    preimage <- randomBytes 32;;
    let preimageHash := sha256 env preimage in
    let dto := {| from := "L-BTC"; to := "BTC";
                  userLockAmount := amount;
                  dto_userAddress := userBtcAddress;
                  refundPublicKey := keyPair_publicKey env;
                  dto_claimPublicKey := keyPair_publicKey env;
                  preimageHash := preimageHash |} in
    emit (ECreateChainSwap dto);;
    chainSwap <- orThrow "createChainSwap" (createChainSwap env dto);;
    match chainSwap with
    | None => throw "Error creating Chain Swap"
    | Some chainSwap =>
        if cs_id chainSwap =? "" then throw "Error creating Chain Swap"
        else
          let mockSwapEntity :=
            {| id := 1;
               swapId := cs_id chainSwap;
               userAddress := userBtcAddress;
               claimPublicKey := serverPublicKey (claimDetails chainSwap);
               claimSwapTree := swapTree (claimDetails chainSwap);
               claimBlindingKey := blindingKey (claimDetails chainSwap);
               lockupPublicKey := serverPublicKey (lockupDetails chainSwap);
               lockupSwapTree := swapTree (lockupDetails chainSwap);
               feeRate := 0%Q;
               boltzFee := 0;
               minerFees := 0;
               preimage := preimage |} in
          subscribe "swap.update" [cs_id chainSwap];;
          handleChainSwapStatusUpdates mockSwapEntity "test-user-id";;
          ret (chainSwap, mockSwapEntity)
    end.

End Liquid.

(* ------------------------------------------------------------------ *)
(** ** Delivering a sequence of messages *)

(** Each message comes with the collaborators' answers during its
    handling. *)
Fixpoint deliver (listener : Env -> Message -> M unit)
    (msgs : list (Env * Message)) (w : World) : World :=
  match msgs with
  | [] => w
  | (env, msg) :: rest => deliver listener rest (snd (listener env msg w))
  end.

(** The statuses the entity goes through while the messages are handled. *)
Fixpoint statusesAlong (listener : Env -> Message -> M unit)
    (msgs : list (Env * Message)) (w : World) : list ChainSwapTransactionStatus :=
  match msgs with
  | [] => []
  | (env, msg) :: rest =>
      let w' := snd (listener env msg w) in
      status w' :: statusesAlong listener rest w'
  end.

(** Projections of a trace. *)
Definition unsubscribeCalls (t : list Effect) : list (string * list string) :=
  flat_map (fun e => match e with
                     | EUnsubscribe c ids => [(c, ids)]
                     | _ => []
                     end) t.

Definition subscribeCalls (t : list Effect) : list (string * list string) :=
  flat_map (fun e => match e with
                     | ESubscribe c ids => [(c, ids)]
                     | _ => []
                     end) t.

Definition broadcasts (t : list Effect) : list Transaction :=
  flat_map (fun e => match e with
                     | EClaimBTC tx => [tx]
                     | _ => []
                     end) t.

Definition nonceSeeds (t : list Effect) : list bytes :=
  flat_map (fun e => match e with
                     | ENewMusig _ s _ => [s]
                     | _ => []
                     end) t.

Definition callsOn (m : nat) (t : list Effect) : list MusigCall :=
  flat_map (fun e => match e with
                     | EMusig n c => if (n =? m)%nat then [c] else []
                     | _ => []
                     end) t.

(* ------------------------------------------------------------------ *)
(** ** A concrete scenario *)

(** A regtest-like run: amount 25000, fee rate 2 sat/vbyte, a fee schedule
    of 0.1 percent with miner fees 300 (server) and 222 (user claim), and a
    lockup transaction that pays the tweaked key at index 1 between two
    decoys. *)
Module Scenario.

Definition tweakedKey : bytes := repeat x44 32.
Definition serverKey : bytes := x03 :: repeat xb0 32.
Definition localKey : bytes := x02 :: repeat xa1 32.
Definition destinationScript : bytes := x00 :: x14 :: repeat xd5 20.

Definition lockupTx : Transaction :=
  {| ins := [ {| hash := repeat x0f 32; index := 0; witness := [] |} ];
     outs := [ {| value := 70000; script := x00 :: x14 :: repeat x01 20 |};
               {| value := 25222; script := x51 :: x20 :: tweakedKey |};
               {| value := 1234; script := x51 :: x20 :: repeat x45 32 |} ] |}.

(** The same transaction without the output for the tweaked key. *)
Definition strayTx : Transaction :=
  {| ins := ins lockupTx;
     outs := [ {| value := 70000; script := x00 :: x14 :: repeat x01 20 |};
               {| value := 1234; script := x51 :: x20 :: repeat x45 32 |} ] |}.

Definition fees : Fees :=
  {| percentage := (1 # 10)%Q; minerFees_server := 300; minerFees_user_claim := 222 |}.

Definition response : ChainSwapResponseDto :=
  {| cs_id := "swap1";
     lockupDetails := {| swapTree := "lockupTree"; serverPublicKey := serverKey;
                         blindingKey := repeat x0b 32 |};
     claimDetails := {| swapTree := "claimTree"; serverPublicKey := serverKey;
                        blindingKey := [] |} |}.

(** The size of a serialized transaction, as bitcoinjs-lib measures it: a
    count or a length takes 1, 3, 5 or 9 bytes; an input with an empty
    script takes 41 bytes and an output 8 bytes and its script; the witnesses
    come with a marker and a flag; the virtual size is a quarter of the
    weight, rounded up. *)
Definition varSize (n : Z) : Z :=
  if (n <? 253)%Z then 1
  else if (n <? 65536)%Z then 3
  else if (n <? 4294967296)%Z then 5
  else 9.

Definition sliceSize (b : bytes) : Z :=
  varSize (Z.of_nat (List.length b)) + Z.of_nat (List.length b).

Definition baseSize (tx : Transaction) : Z :=
  4 + varSize (Z.of_nat (List.length (ins tx))) + 41 * Z.of_nat (List.length (ins tx))
  + varSize (Z.of_nat (List.length (outs tx)))
  + fold_right (fun o n => 8 + sliceSize (script o) + n) 0 (outs tx)
  + 4.

Definition witnessSize (tx : Transaction) : Z :=
  2 + fold_right
        (fun i n => varSize (Z.of_nat (List.length (witness i)))
                    + fold_right (fun item k => sliceSize item + k) 0 (witness i)
                    + n)
        0 (ins tx).

Definition virtualSize (tx : Transaction) : Z :=
  (4 * baseSize tx + witnessSize tx + 3) / 4.

(** The collaborators of the run.  The fee is the one boltz-core settles
    on: the rate times the virtual size of the transaction constructed with
    a fee of 1, counted with one more vbyte for each input, rounded up.  For
    the claim transaction of this run that is 2 * (99 + 1) = 200. *)
Definition env : Env :=
  {| keyPair_publicKey := localKey;
     Transaction_fromHex := fun h =>
       if h =? "lockup" then Some lockupTx
       else if h =? "stray" then Some strayTx
       else None;
     getHash := fun _ => repeat xaa 32;
     toOutputScript := fun a => if a =? "" then None else Some destinationScript;
     fromConfidential_blindingKey := fun a => if a =? "" then None else Some (repeat x0c 33);
     hashForWitnessV1 := fun _ _ _ _ => Some (repeat x11 32);
     sha256 := fun _ => repeat x22 32;
     deserializeSwapTree := fun s => if s =? "" then None else Some (repeat x33 32);
     musigAnswer := fun m c =>
       match c with
       | TweakMusig _ => Some tweakedKey
       | GetPublicNonce => Some (seed m ++ seed m)%list
       | SignPartial => Some (repeat x55 32)
       | AggregatePartials => Some (repeat x66 64)
       | _ => Some []
       end;
     settleFee := fun rate constructTx =>
       match constructTx 1 with
       | Some tx =>
           Some (Qceiling
                   (rate * inject_Z (virtualSize tx + Z.of_nat (List.length (ins tx))))%Q)
       | None => None
       end;
     getNetworkFee := fun _ => Some 2%Q;
     getChainSwapFee := Some fees;
     createChainSwap := fun _ => Some (Some response);
     getChainSwapClaimDetails := fun _ => Some (repeat x77 66, repeat x88 32);
     getSwapClaimDetails := fun _ => Some (repeat x77 66, repeat x88 32);
     claimChainSwap := fun _ _ _ _ _ _ _ => Some (repeat x99 66, repeat x9a 32);
     claimBTC := fun _ => Some "claimTxId" |}.

(** The same collaborators, with a service that refuses the broadcast. *)
Definition refusing : Env :=
  {| keyPair_publicKey := keyPair_publicKey env;
     Transaction_fromHex := Transaction_fromHex env;
     getHash := getHash env;
     toOutputScript := toOutputScript env;
     fromConfidential_blindingKey := fromConfidential_blindingKey env;
     hashForWitnessV1 := hashForWitnessV1 env;
     sha256 := sha256 env;
     deserializeSwapTree := deserializeSwapTree env;
     musigAnswer := musigAnswer env;
     settleFee := settleFee env;
     getNetworkFee := getNetworkFee env;
     getChainSwapFee := getChainSwapFee env;
     createChainSwap := createChainSwap env;
     getChainSwapClaimDetails := getChainSwapClaimDetails env;
     getSwapClaimDetails := getSwapClaimDetails env;
     claimChainSwap := claimChainSwap env;
     claimBTC := fun _ => None |}.

(** An entropy source whose [k]-th draw repeats the byte [k]. *)
Definition entropy (k i : nat) : byte :=
  match Byte.of_nat k with
  | Some b => b
  | None => x00
  end.

Definition world (s : ChainSwapTransactionStatus) : World :=
  mkWorld s true entropy 0 0 [].

(** The entity [startBoltzChainSwapWithListeners] makes for 25000 sats. *)
Definition entity : WithdrawChainSwapTransaction :=
  {| id := 1; swapId := "swap1"; userAddress := "bcrt1qz2npm9j8uap52v8usgt08maqvtu7yumh0rfydq";
     claimPublicKey := serverKey; claimSwapTree := "claimTree"; claimBlindingKey := [];
     lockupPublicKey := serverKey; lockupSwapTree := "lockupTree";
     preimage := repeat x00 32;
     minerFees := 522; boltzFee := 26; feeRate := 2%Q |}.

Definition update (s : string) (hex : option string) : Message :=
  {| event := Some "update";
     args := Some [ {| arg_id := "swap1"; arg_status := s;
                       arg_transaction := Some {| tx_id := Some "txid"; tx_hex := hex |} |} ] |}.

Definition canonical : list (Env * Message) :=
  [ (env, update "swap.created" None);
    (env, update "transaction.lockup" (Some "userLockup"));
    (env, update "transaction.server.mempool" (Some "lockup"));
    (env, update "transaction.server.confirmed" (Some "lockup"));
    (env, update "transaction.claimed" None) ].

End Scenario.


(* ------------------------------------------------------------------ *)
(** ** Vocabulary of the properties *)

(** Either class, by name. *)
Definition dispatchOf (v : Service) :=
  match v with
  | BitcoinClaimer => Btc.dispatch
  | LiquidClaimer => Liquid.dispatch
  end.

Definition onMessageOf (v : Service) :=
  match v with
  | BitcoinClaimer => Btc.onMessage
  | LiquidClaimer => Liquid.onMessage
  end.

Definition listener (v : Service) (chainSwapEntity : WithdrawChainSwapTransaction)
    (userId : string) : Env -> Message -> M unit :=
  fun env msg => onMessageOf v env chainSwapEntity userId msg.

(** The callback as the message stream calls it, with whatever [JSON.parse]
    returned.  Its first statement after the logging reads [msg.event],
    outside the [try]: on [null] that is a [TypeError], and the promise of
    the callback is rejected. *)
Definition callbackOf (v : Service) (env : Env)
    (chainSwapEntity : WithdrawChainSwapTransaction) (userId : string)
    (parsed : Parsed) : M unit :=
  match parsed with
  | JsonNull => throw "TypeError: Cannot read properties of null (reading 'event')"
  | JsonValue msg => onMessageOf v env chainSwapEntity userId msg
  end.

(** A message is for the tracked swap when it passes both guards of the
    listener. *)
Definition tracked (chainSwapEntity : WithdrawChainSwapTransaction) (msg : Message)
    (a : UpdateArg) : Prop :=
  event msg = Some "update" /\ firstArg msg = Some a /\
  arg_id a = swapId chainSwapEntity.

(** The 32 bytes the [k]-th draw of the world's entropy gives. *)
Definition seedAt (w : World) (k : nat) : bytes := drawn (rng w) k 32.

(** The names of the session operations. *)
Inductive MusigOp :=
| tweak
| getPublicNonce
| aggregateNonces
| initializeSession
| signPartial
| addPartial
| aggregatePartials.

Definition opOf (c : MusigCall) : MusigOp :=
  match c with
  | TweakMusig _ => tweak
  | GetPublicNonce => getPublicNonce
  | AggregateNonces _ => aggregateNonces
  | InitializeSession _ => initializeSession
  | AddPartial _ _ => addPartial
  | SignPartial => signPartial
  | AggregatePartials => aggregatePartials
  end.

Definition isGetter (o : MusigOp) : bool :=
  match o with
  | getPublicNonce => true
  | _ => false
  end.

(** The operations of a session in the order they were called, the nonce
    getter left out. *)
Definition signingOps (calls : list MusigCall) : list MusigOp :=
  filter (fun o => negb (isGetter o)) (map opOf calls).

(** The order the specification lists. *)
Definition listedOrder : list MusigOp :=
  [tweak; aggregateNonces; initializeSession; signPartial; addPartial;
   aggregatePartials].

(** A transaction whose first input carries, as its whole witness, a
    signature some session's [aggregatePartials] returned. *)
Definition finalized (env : Env) (tx : Transaction) : Prop :=
  exists i rest signature m,
    ins tx = i :: rest /\ witness i = [signature] /\
    musigAnswer env m AggregatePartials = Some signature.

(** What the claim pipeline may do to the outside: no status write, no
    subscription traffic, and only finalized broadcasts. *)
Definition pipelineEffect (env : Env) (e : Effect) : Prop :=
  match e with
  | EUpdateStatus _ _ _ | ESubscribe _ _ | EUnsubscribe _ _ | EWsSend _ _ _
  | EListen _ => False
  | EClaimBTC tx => finalized env tx
  | _ => True
  end.

(** What a [switch] that throws may have done: as above, but a status write
    is allowed. *)
Definition failureEffect (env : Env) (e : Effect) : Prop :=
  match e with
  | ESubscribe _ _ | EUnsubscribe _ _ | EWsSend _ _ _ | EListen _ => False
  | EClaimBTC tx => finalized env tx
  | _ => True
  end.

(** Relations between the world before and after a computation.  *)
Definition preserves (R : World -> World -> Prop) {A} (m : M A) : Prop :=
  forall w, R w (snd (m w)).

(** The trace only grows, by effects of a given kind. *)
Definition extends (P : Effect -> Prop) (w w' : World) : Prop :=
  exists added, trace w' = trace w ++ added /\ Forall P added.

(** The same, with the status left alone. *)
Definition quietly (P : Effect -> Prop) (w w' : World) : Prop :=
  status w' = status w /\ extends P w w'.

(** Every session constructed in between took a draw of its own. *)
Definition freshSeeds (w w' : World) : Prop :=
  rng w' = rng w /\ (draws w <= draws w')%nat /\
  exists added,
    trace w' = trace w ++ added /\
    nonceSeeds added = map (seedAt w) (seq (draws w) (draws w' - draws w)).

(** The forward-only reading of the lifecycle. *)
Definition isTerminal (s : ChainSwapTransactionStatus) : bool :=
  match s with
  | CLAIM_CONFIRMED | LOCKUP_FAILED | CLAIM_FAILED => true
  | _ => false
  end.

(** One step respects the forward order when a terminal status stays and a
    status of the happy path is not below the one before. *)
Definition forwardStep (s s' : ChainSwapTransactionStatus) : Prop :=
  (isTerminal s = true -> s' = s) /\
  (statusValue s' <= 4 -> statusValue s <= statusValue s').

Fixpoint forwardOnly (s : ChainSwapTransactionStatus)
    (after : list ChainSwapTransactionStatus) : Prop :=
  match after with
  | [] => True
  | s' :: rest => forwardStep s s' /\ forwardOnly s' rest
  end.

(** A failure of the swap on this side. *)
Definition locallyFailed (w : World) : Prop :=
  status w = LOCKUP_FAILED \/ status w = CLAIM_FAILED.

(** The swap is left recoverable: not failed, and still listened to. *)
Definition leftRecoverable (w w' : World) : Prop :=
  ~ locallyFailed w' /\
  unsubscribeCalls (trace w') = unsubscribeCalls (trace w).

(** The output value the end-to-end scenario of the specification
    expects: the amount less the miner fees and the service fee. *)
Definition expectedClaimValue (amount : Z) (e : WithdrawChainSwapTransaction)
  : JsNumber :=
  jsSub (jsSub amount (minerFees e)) (boltzFee e).

(** The statuses written, in order. *)
Definition statusWrites (t : list Effect) : list ChainSwapTransactionStatus :=
  flat_map (fun e => match e with
                     | EUpdateStatus _ s _ => [s]
                     | _ => []
                     end) t.

(* ------------------------------------------------------------------ *)
(** ** The websocket client on its own *)

(** [BoltzWebsocketClient], with the socket reduced to its [readyState].
    The events are those of the current socket; [ws.close()] moves an open
    socket to [CLOSING], the "open" event finds it [OPEN] and the "close"
    event [CLOSED], as the WebSocket interface has it. *)
Module WsClient.

Inductive ReadyState := CONNECTING | OPEN | CLOSING | CLOSED.

Definition Frame := (string * string * list string)%type.

(** [ws] is undefined until [connect] is called; [sent] collects what
    [ws.send] was given and [published] what [messageSubject.next] was
    given. *)
Record Client := {
  ws : option ReadyState;
  isConnected : bool;
  sent : list Frame;
  published : list Parsed
}.

(** The state the constructor leaves. *)
Definition fresh : Client :=
  {| ws := None; isConnected := false; sent := []; published := [] |}.

Definition isOPEN (r : ReadyState) : bool :=
  match r with
  | OPEN => true
  | _ => false
  end.

(** [this.ws = new WebSocket(...)] *)
Definition connect (c : Client) : Client :=
  {| ws := Some CONNECTING; isConnected := isConnected c; sent := sent c;
     published := published c |}.

(** The handlers [connect] registers on the socket. *)
Definition onOpen (c : Client) : Client :=
  match ws c with
  | Some _ => {| ws := Some OPEN; isConnected := true; sent := sent c;
                 published := published c |}
  | None => c
  end.

(** [JSON.parse] is [parse]; data that does not parse is logged and dropped,
    and what [parse] returns is published unchecked, [null] included. *)
Definition onSocketMessage (parse : string -> option Parsed) (data : string)
    (c : Client) : Client :=
  match ws c with
  | Some _ =>
      match parse data with
      | Some message => {| ws := ws c; isConnected := isConnected c; sent := sent c;
                           published := published c ++ [message] |}
      | None => c
      end
  | None => c
  end.

Definition onError (c : Client) : Client :=
  match ws c with
  | Some _ => {| ws := ws c; isConnected := false; sent := sent c;
                 published := published c |}
  | None => c
  end.

Definition onClose (c : Client) : Client :=
  match ws c with
  | Some _ => {| ws := Some CLOSED; isConnected := false; sent := sent c;
                 published := published c |}
  | None => c
  end.

(** [disconnect()] *)
Definition disconnect (c : Client) : Client :=
  match ws c with
  | Some OPEN => {| ws := Some CLOSING; isConnected := false; sent := sent c;
                    published := published c |}
  | _ => c
  end.

(** [this.isConnected && this.ws.readyState === WebSocket.OPEN]; [None] is
    the [TypeError] of reading [readyState] of an undefined socket. *)
Definition isWebSocketConnected (c : Client) : option bool :=
  if isConnected c then
    match ws c with
    | Some r => Some (isOPEN r)
    | None => None
    end
  else Some false.

Definition request (op channel : string) (ids : list string) (c : Client)
  : option Client :=
  match isWebSocketConnected c with
  | Some true => Some {| ws := ws c; isConnected := isConnected c;
                         sent := sent c ++ [(op, channel, ids)];
                         published := published c |}
  | Some false => Some c
  | None => None
  end.

Definition subscribe := request "subscribe".

Definition unsubscribe := request "unsubscribe".

(** What can happen to a client: a call of one of its methods, or an event
    of its socket. *)
Inductive Op :=
| Connect
| Disconnect
| Subscribe (channel : string) (ids : list string)
| Unsubscribe (channel : string) (ids : list string)
| SocketOpen
| SocketMessage (data : string)
| SocketError
| SocketClose.

Definition step (parse : string -> option Parsed) (c : Client) (o : Op)
  : option Client :=
  match o with
  | Connect => Some (connect c)
  | Disconnect => Some (disconnect c)
  | Subscribe channel ids => subscribe channel ids c
  | Unsubscribe channel ids => unsubscribe channel ids c
  | SocketOpen => Some (onOpen c)
  | SocketMessage data => Some (onSocketMessage parse data c)
  | SocketError => Some (onError c)
  | SocketClose => Some (onClose c)
  end.

Fixpoint run (parse : string -> option Parsed) (c : Client) (os : list Op)
  : option Client :=
  match os with
  | [] => Some c
  | o :: rest =>
      match step parse c o with
      | Some c' => run parse c' rest
      | None => None
      end
  end.

Definition isRequest (o : Op) : bool :=
  match o with
  | Subscribe _ _ | Unsubscribe _ _ => true
  | _ => false
  end.

End WsClient.

(* ------------------------------------------------------------------ *)
(** ** The detection probe of the confidential-chain class *)

(** [testDetectSwap]: it tweaks a session over the local key taken twice
    and returns what [detectSwap] returns.  Before detecting it prints every
    output with [bitcoin.script.toASM], which throws on a script that does
    not decompile; [toASM] is that library function. *)
Definition testDetectSwap (env : Env) (toASM : bytes -> option string)
    (lockupTransactionHex : string) (claimSwapTree : string)
  : M (option SwapOutput) :=
  let boltzPublicKey := keyPair_publicKey env in
  musig <- newMusig [boltzPublicKey; keyPair_publicKey env];;
  swapTree <- orThrow "deserializeSwapTree" (deserializeSwapTree env claimSwapTree);;
  '(tweakedKey, musig) <- musigCall env musig (TweakMusig swapTree);;
  lockupTx <- orThrow "Transaction.fromHex"
                (Transaction_fromHex env lockupTransactionHex);;
  (if forallb (fun out => match toASM (script out) with
                          | Some _ => true
                          | None => false
                          end) (outs lockupTx)
   then ret tt
   else throw "Could not convert invalid chunks to ASM");;
  ret (detectSwap tweakedKey lockupTx).

(* ------------------------------------------------------------------ *)
(** ** More vocabulary *)

(** Calls to the REST service. *)
Definition isServiceCall (e : Effect) : bool :=
  match e with
  | EGetNetworkFee _ | EGetChainSwapFee | ECreateChainSwap _
  | EGetClaimDetails _ _ | EClaimChainSwap _ _ _ _ _ _ _ | EClaimBTC _ => true
  | _ => false
  end.

Definition serviceCalls (t : list Effect) : list Effect := filter isServiceCall t.

(** Sessions constructed. *)
Definition isNewMusig (e : Effect) : bool :=
  match e with
  | ENewMusig _ _ _ => true
  | _ => false
  end.

Definition sessionsMade (t : list Effect) : list Effect := filter isNewMusig t.

(** Listeners registered on the message stream. *)
Definition listens (t : list Effect) : list string :=
  flat_map (fun e => match e with
                     | EListen s => [s]
                     | _ => []
                     end) t.

(** The frames the calls of [subscribe] and [unsubscribe] ask for, and the
    frames that went out on the socket. *)
Definition requestedFrames (t : list Effect) : list (string * string * list string) :=
  flat_map (fun e => match e with
                     | ESubscribe c ids => [("subscribe", c, ids)]
                     | EUnsubscribe c ids => [("unsubscribe", c, ids)]
                     | _ => []
                     end) t.

Definition sentFrames (t : list Effect) : list (string * string * list string) :=
  flat_map (fun e => match e with
                     | EWsSend op c ids => [(op, c, ids)]
                     | _ => []
                     end) t.

(** The socket and the entropy source are left as they are, and the frames
    that went out are the requested ones if the socket is open and none if
    it is not. *)
Definition wired (w w' : World) : Prop :=
  wsOpen w' = wsOpen w /\
  exists added,
    trace w' = trace w ++ added /\
    sentFrames added = if wsOpen w then requestedFrames added else [].

(** What a listener may do: everything but subscribing, registering a
    listener, and the calls that start a swap. *)
Definition listenerEffect (e : Effect) : Prop :=
  match e with
  | ESubscribe _ _ | EListen _ | EGetNetworkFee _ | EGetChainSwapFee
  | ECreateChainSwap _ | EWsSend "subscribe" _ _ => False
  | _ => True
  end.

(** The socket and the entropy source are left as they are and the trace
    grows by effects of a given kind. *)
Definition steadily (P : Effect -> Prop) (w w' : World) : Prop :=
  wsOpen w' = wsOpen w /\ rng w' = rng w /\ extends P w w'.

(** What building the claim transaction may do: sessions and calls on
    them. *)
Definition sessionEffect (e : Effect) : Prop :=
  match e with
  | ENewMusig _ _ _ | EMusig _ _ => True
  | _ => False
  end.

(** The outpoint an input spends. *)
Definition outpoint (i : TxInput) : bytes * nat := (hash i, index i).

(** The claim-details endpoint each class asks. *)
Definition claimDetailsEndpoint (v : Service) : string :=
  match v with
  | BitcoinClaimer => "chain"
  | LiquidClaimer => "submarine"
  end.

Definition claimDetailsOf (v : Service) (env : Env) (swap : string)
  : option (bytes * bytes) :=
  match v with
  | BitcoinClaimer => getChainSwapClaimDetails env swap
  | LiquidClaimer => getSwapClaimDetails env swap
  end.

(** The event whose case runs the claim pipeline in each class. *)
Definition claimEvent (v : Service) : string :=
  match v with
  | BitcoinClaimer => "transaction.server.confirmed"
  | LiquidClaimer => "transaction.server.mempool"
  end.

(** The status a failure event writes. *)
Definition failureStatus (s : string) : option ChainSwapTransactionStatus :=
  if s =? "transaction.lockupFailed" then Some LOCKUP_FAILED
  else if s =? "transaction.claimFailed" then Some CLAIM_FAILED
  else if s =? "swap.expired" then Some LOCKUP_FAILED
  else None.

(* ------------------------------------------------------------------ *)
(** * Proofs *)

Unset Implicit Arguments.

(** ** Frame reasoning: relations every step of a computation keeps *)

Section Frame.

Variable R : World -> World -> Prop.
Context {R_preorder : PreOrder R}.

Lemma preserves_ret A (a : A) : preserves R (ret a).
Proof. intros w. simpl. reflexivity. Qed.

Lemma preserves_throw A (e : string) : preserves R (@throw A e).
Proof. intros w. simpl. reflexivity. Qed.

Lemma preserves_isOpen : preserves R isOpen.
Proof. intros w. simpl. reflexivity. Qed.

Lemma preserves_orThrow A (what : string) (o : option A) :
  preserves R (orThrow what o).
Proof. destruct o; [apply preserves_ret | apply preserves_throw]. Qed.

Lemma preserves_bind A B (m : M A) (k : A -> M B) :
  preserves R m -> (forall a, preserves R (k a)) -> preserves R (bind m k).
Proof.
  intros Hm Hk w. unfold bind.
  specialize (Hm w). destruct (m w) as [[a | e] w1]; simpl in *.
  - transitivity w1; [assumption | apply Hk].
  - assumption.
Qed.

Lemma preserves_tryCatch A (m : M A) (h : string -> M A) :
  preserves R m -> (forall e, preserves R (h e)) -> preserves R (tryCatch m h).
Proof.
  intros Hm Hh w. unfold tryCatch.
  specialize (Hm w). destruct (m w) as [[a | e] w1]; simpl in *.
  - assumption.
  - transitivity w1; [assumption | apply Hh].
Qed.

End Frame.

(** Walks down a computation, leaving the primitive steps to the hints. *)
Ltac frame_side :=
  lazymatch goal with
  | |- PreOrder _ => typeclasses eauto
  | |- forall _, _ => intros ?
  | |- _ => idtac
  end.

Ltac frame_step :=
  lazymatch goal with
  | |- preserves _ (bind _ _) => apply preserves_bind; frame_side
  | |- preserves _ (ret _) => apply preserves_ret; frame_side
  | |- preserves _ (throw _) => apply preserves_throw; frame_side
  | |- preserves _ (orThrow _ _) => apply preserves_orThrow; frame_side
  | |- preserves _ isOpen => apply preserves_isOpen; frame_side
  | |- preserves _ (tryCatch _ _) => apply preserves_tryCatch; frame_side
  | |- preserves _ (match ?x with _ => _ end) => destruct x
  end.

Create HintDb frame.

Ltac frame := repeat first [ frame_step | solve [ auto with frame ] ].

(** Splits a finished run into the answers the collaborators gave. *)
Ltac crack H :=
  repeat match type of H with
         | context [match ?o with _ => _ end] =>
             lazymatch o with
             | context [match _ with _ => _ end] => fail
             | _ => destruct o eqn:?; simpl in H; try discriminate H
             end
         end.

(** *** Growth of the trace *)

#[export] Instance extends_preorder P : PreOrder (extends P).
Proof.
  split.
  - intros w. exists []. split; [now rewrite app_nil_r | constructor].
  - intros w1 w2 w3 [a1 [E1 F1]] [a2 [E2 F2]].
    exists (a1 ++ a2). split.
    + now rewrite E2, E1, app_assoc.
    + apply Forall_app. now split.
Qed.

#[export] Instance quietly_preorder P : PreOrder (quietly P).
Proof.
  split.
  - intros w. split; reflexivity.
  - intros w1 w2 w3 [S1 X1] [S2 X2]. split.
    + congruence.
    + now transitivity w2.
Qed.

Lemma emit_quietly (P : Effect -> Prop) e : P e -> preserves (quietly P) (emit e).
Proof.
  intros H w. split; [reflexivity |].
  exists [e]. split; [reflexivity | now constructor].
Qed.

Lemma nextSession_quietly P : preserves (quietly P) nextSession.
Proof. intros w. split; [reflexivity | exists []; simpl; now rewrite app_nil_r]. Qed.

Lemma randomBytes_quietly P n : preserves (quietly P) (randomBytes n).
Proof. intros w. split; [reflexivity | exists []; simpl; now rewrite app_nil_r]. Qed.

#[export] Hint Resolve nextSession_quietly randomBytes_quietly : frame.
#[export] Hint Extern 1 (preserves (quietly (pipelineEffect _)) (emit _)) =>
  apply emit_quietly; exact I : frame.

(** *** Draws of the entropy source *)

Lemma nonceSeeds_app (a b : list Effect) :
  nonceSeeds (a ++ b) = nonceSeeds a ++ nonceSeeds b.
Proof. unfold nonceSeeds. apply flat_map_app. Qed.

Lemma seedAt_rng (w w' : World) : rng w' = rng w -> seedAt w' = seedAt w.
Proof. intros E. unfold seedAt. now rewrite E. Qed.

Lemma seedAt_length w k : List.length (seedAt w k) = 32%nat.
Proof. unfold seedAt, drawn. now rewrite length_map, length_seq. Qed.

#[export] Instance freshSeeds_preorder : PreOrder freshSeeds.
Proof.
  split.
  - intros w. split; [reflexivity | split; [lia |]].
    exists []. rewrite Nat.sub_diag. split; [now rewrite app_nil_r | reflexivity].
  - intros w1 w2 w3 (G1 & L1 & a1 & E1 & N1) (G2 & L2 & a2 & E2 & N2).
    split; [congruence | split; [lia |]].
    exists (a1 ++ a2). split.
    + now rewrite E2, E1, app_assoc.
    + rewrite nonceSeeds_app, N1, N2, (seedAt_rng _ _ G1), <- map_app.
      f_equal.
      replace (draws w3 - draws w1)%nat
        with ((draws w2 - draws w1) + (draws w3 - draws w2))%nat by lia.
      rewrite seq_app. do 2 f_equal. lia.
Qed.

Lemma emit_freshSeeds e : nonceSeeds [e] = [] -> preserves freshSeeds (emit e).
Proof.
  intros H w. split; [reflexivity | split; [simpl; lia |]].
  exists [e]. simpl trace. simpl draws. rewrite Nat.sub_diag.
  split; [reflexivity | exact H].
Qed.

Lemma setStatus_freshSeeds s : preserves freshSeeds (setStatus s).
Proof.
  intros w. split; [reflexivity | split; [simpl; lia |]].
  exists []. simpl. rewrite Nat.sub_diag, app_nil_r. now split.
Qed.

Lemma newMusig_freshSeeds keys : preserves freshSeeds (newMusig keys).
Proof.
  intros w. split; [reflexivity | split; [simpl; lia |]].
  exists [ENewMusig (sessions w) (seedAt w (draws w)) keys].
  split; [reflexivity |].
  change (draws (snd (newMusig keys w))) with (S (draws w)).
  replace (S (draws w) - draws w)%nat with 1%nat by lia.
  reflexivity.
Qed.

#[export] Hint Resolve setStatus_freshSeeds newMusig_freshSeeds : frame.
#[export] Hint Extern 1 (preserves freshSeeds (emit _)) =>
  apply emit_freshSeeds; reflexivity : frame.

(* ------------------------------------------------------------------ *)
(** ** Sessions and entropy *)

Lemma musigCall_freshSeeds env m c : preserves freshSeeds (musigCall env m c).
Proof. unfold musigCall. frame. Qed.

Lemma unsubscribe_freshSeeds c ids : preserves freshSeeds (unsubscribe c ids).
Proof. unfold unsubscribe. frame. Qed.

Lemma updateChainSwapStatus_freshSeeds i s h :
  preserves freshSeeds (updateChainSwapStatus i s h).
Proof. unfold updateChainSwapStatus. frame. Qed.

#[export] Hint Resolve musigCall_freshSeeds unsubscribe_freshSeeds
  updateChainSwapStatus_freshSeeds : frame.

Lemma claimSteps_freshSeeds v env ent hex :
  preserves freshSeeds (claimSteps v env ent hex).
Proof.
  unfold claimSteps, createClaimTransaction, getBoltzPartialSignature,
    performChainSwapClaim, targetFee, setWitness0.
  cbv zeta. frame.
Qed.

#[export] Hint Resolve claimSteps_freshSeeds : frame.

Lemma dispatch_freshSeeds v env ent user a :
  preserves freshSeeds (dispatchOf v env ent user a).
Proof.
  destruct v; simpl;
    unfold Btc.dispatch, Btc.broadcastCoSignedClaimTransaction, Liquid.dispatch,
      finishChainSwap;
    cbv zeta; frame.
Qed.

Lemma onMessage_freshSeeds v env ent user msg :
  preserves freshSeeds (onMessageOf v env ent user msg).
Proof.
  pose proof (dispatch_freshSeeds v env ent user) as D.
  destruct v; simpl in *; unfold Btc.onMessage, Liquid.onMessage; frame.
Qed.

Lemma deliver_freshSeeds v ent user msgs :
  forall w, freshSeeds w (deliver (listener v ent user) msgs w).
Proof.
  induction msgs as [| [env msg] rest IH]; intros w; simpl.
  - reflexivity.
  - etransitivity; [apply (onMessage_freshSeeds v env ent user msg w) |].
    apply IH.
Qed.

Lemma NoDup_map_seq (A : Type) (f : nat -> A) (n : nat) :
  forall a,
    (forall i j, (a <= i < j)%nat -> (j < a + n)%nat -> f i <> f j) ->
    NoDup (map f (seq a n)).
Proof.
  induction n as [| n IH]; intros a H; simpl.
  - constructor.
  - constructor.
    + intros Hin. apply in_map_iff in Hin. destruct Hin as [j [E Hj]].
      apply in_seq in Hj. apply (H a j); [lia | lia | now symmetry].
    + apply IH. intros i j Hij Hj. apply H; lia.
Qed.

(* ------------------------------------------------------------------ *)
(** ** Messages that are not for the tracked swap *)

Lemma onMessage_tracked v env ent user msg a :
  tracked ent msg a ->
  onMessageOf v env ent user msg =
  tryCatch (dispatchOf v env ent user a)
    (fun _ => updateChainSwapStatus (id ent) CLAIM_FAILED None;;
              unsubscribe "swap.update" [swapId ent]).
Proof.
  intros (Hev & Harg & Hid).
  destruct v; simpl; unfold Btc.onMessage, Liquid.onMessage, notUpdate;
    rewrite Hev, Harg, Hid; simpl; now rewrite String.eqb_refl.
Qed.

(** C9.  A message whose event is not "update", or that carries no first
    argument, or whose first argument names another swap, is dropped by the
    listener of either class: the handler returns normally and the world
    (status, subscriptions, sessions, entropy, trace of calls) is the one it
    started from. *)
Theorem foreign_message_leaves_world_alone
    (v : Service) (env : Env) (ent : WithdrawChainSwapTransaction)
    (user : string) (msg : Message) (w : World) :
  event msg <> Some "update" \/
  firstArg msg = None \/
  (exists a, firstArg msg = Some a /\ arg_id a <> swapId ent) ->
  onMessageOf v env ent user msg w = (Ok tt, w).
Proof.
  intros H.
  assert (G : notUpdate msg = true \/ firstArg msg = None \/
              exists a, firstArg msg = Some a /\
                        (arg_id a =? swapId ent) = false).
  { destruct H as [H | [H | [a [Ha Hne]]]].
    - left. unfold notUpdate. destruct (event msg) as [e |]; [| reflexivity].
      destruct (String.eqb_spec e "update") as [-> | _]; [now elim H | reflexivity].
    - right. now left.
    - right. right. exists a. split; [assumption |].
      now apply String.eqb_neq. }
  destruct v; simpl; unfold Btc.onMessage, Liquid.onMessage.
  all: destruct G as [G | [G | [a [Ga Gne]]]].
  all: try (rewrite G; reflexivity).
  all: try (destruct (notUpdate msg); [reflexivity | rewrite G; reflexivity]).
  all: destruct (notUpdate msg); [reflexivity | rewrite Ga, Gne; reflexivity].
Qed.

Lemma foreign_message_leaves_world_alone_witness :
  onMessageOf BitcoinClaimer Scenario.env Scenario.entity "test-user-id"
    {| event := Some "update";
       args := Some [ {| arg_id := "swap2"; arg_status := "transaction.claimed";
                         arg_transaction := None |} ] |}
    (Scenario.world CLAIM_PENDING)
  = (Ok tt, Scenario.world CLAIM_PENDING).
Proof.
  apply foreign_message_leaves_world_alone.
  right. right. eexists. split; [reflexivity | discriminate].
Defined.

(* ------------------------------------------------------------------ *)
(** ** Starting a swap *)

(** C10.  With an empty address or an amount that is not positive, each of
    the three entry points throws "Invalid address or amount" and leaves the
    world as it was: no REST call, no draw of a preimage, no subscription. *)
Theorem invalid_address_or_amount_throws_first
    (env : Env) (userBtcAddress : string) (amount : Z) (w : World) :
  userBtcAddress = "" \/ amount <= 0 ->
  Btc.startBoltzChainSwapWithListeners env userBtcAddress amount w
    = (Throw "Invalid address or amount", w) /\
  Liquid.startBoltzChainSwap env userBtcAddress amount w
    = (Throw "Invalid address or amount", w) /\
  Liquid.startBoltzChainSwapWithListeners env userBtcAddress amount w
    = (Throw "Invalid address or amount", w).
Proof.
  intros H.
  assert (G : (userBtcAddress =? "") || (amount <=? 0)%Z = true).
  { apply orb_true_iff. destruct H as [-> | H].
    - now left.
    - right. now apply Z.leb_le. }
  unfold Btc.startBoltzChainSwapWithListeners, Liquid.startBoltzChainSwap,
    Liquid.startBoltzChainSwapWithListeners.
  rewrite G. repeat split.
Qed.

Lemma invalid_address_or_amount_throws_first_witness :
  Btc.startBoltzChainSwapWithListeners Scenario.env "bcrt1qaddr" 0
      (Scenario.world CREATED)
    = (Throw "Invalid address or amount", Scenario.world CREATED) /\
  Liquid.startBoltzChainSwap Scenario.env "bcrt1qaddr" 0 (Scenario.world CREATED)
    = (Throw "Invalid address or amount", Scenario.world CREATED) /\
  Liquid.startBoltzChainSwapWithListeners Scenario.env "bcrt1qaddr" 0
      (Scenario.world CREATED)
    = (Throw "Invalid address or amount", Scenario.world CREATED).
Proof.
  apply invalid_address_or_amount_throws_first. right. lia.
Defined.

(* ------------------------------------------------------------------ *)
(** ** Nonce seeds *)

(** C6.  Along any run of either listener, every [Musig] session that is
    constructed (the one [createClaimTransaction] tweaks with the claim tree
    and the one [getBoltzPartialSignature] tweaks with the lockup tree, in
    every claim attempt) is seeded with 32 bytes from a draw of
    [randomBytes] of its own: the seeds are, in order, the draws the run
    consumed.  So whenever the entropy source gives different bytes on the
    draws of the run, no two sessions share a nonce seed. *)
Theorem nonce_seed_never_reused
    (v : Service) (ent : WithdrawChainSwapTransaction) (user : string)
    (msgs : list (Env * Message)) (w : World) :
  (forall i j, (draws w <= i < j)%nat ->
               (j < draws (deliver (listener v ent user) msgs w))%nat ->
               seedAt w i <> seedAt w j) ->
  exists added,
    trace (deliver (listener v ent user) msgs w) = trace w ++ added /\
    nonceSeeds added =
      map (seedAt w)
          (seq (draws w) (draws (deliver (listener v ent user) msgs w) - draws w)) /\
    Forall (fun s => List.length s = 32%nat) (nonceSeeds added) /\
    NoDup (nonceSeeds added).
Proof.
  intros Hrng.
  destruct (deliver_freshSeeds v ent user msgs w) as (_ & Hle & added & Htr & Hseeds).
  exists added. split; [exact Htr | split; [exact Hseeds |]].
  rewrite Hseeds. split.
  - apply Forall_forall. intros s Hs. apply in_map_iff in Hs.
    destruct Hs as [k [<- _]]. apply seedAt_length.
  - apply NoDup_map_seq. intros i j Hij Hj. apply Hrng; [exact Hij | lia].
Qed.

(** Two claim attempts in a row for the same swap: four sessions, four
    different seeds. *)
Lemma nonce_seed_never_reused_witness :
  exists added,
    trace (deliver (listener BitcoinClaimer Scenario.entity "test-user-id")
             [ (Scenario.env,
                Scenario.update "transaction.server.confirmed" (Some "lockup"));
               (Scenario.env,
                Scenario.update "transaction.server.confirmed" (Some "lockup")) ]
             (Scenario.world CLAIM_PENDING))
      = trace (Scenario.world CLAIM_PENDING) ++ added /\
    nonceSeeds added = map (seedAt (Scenario.world CLAIM_PENDING)) (seq 0 4) /\
    Forall (fun s => List.length s = 32%nat) (nonceSeeds added) /\
    NoDup (nonceSeeds added).
Proof.
  apply (nonce_seed_never_reused BitcoinClaimer Scenario.entity "test-user-id"
           [ (Scenario.env,
              Scenario.update "transaction.server.confirmed" (Some "lockup"));
             (Scenario.env,
              Scenario.update "transaction.server.confirmed" (Some "lockup")) ]
           (Scenario.world CLAIM_PENDING)).
  intros i j Hij Hj.
  change (j < 4)%nat in Hj. change (0 <= i < j)%nat in Hij.
  assert (Hi : i = 0%nat \/ i = 1%nat \/ i = 2%nat) by lia.
  assert (Hj' : j = 1%nat \/ j = 2%nat \/ j = 3%nat) by lia.
  destruct Hi as [-> | [-> | ->]]; destruct Hj' as [-> | [-> | ->]];
    solve [ lia | intros E; vm_compute in E; discriminate E ].
Defined.

(* ------------------------------------------------------------------ *)
(** ** What the claim pipeline leaves alone *)

Ltac finalized_now :=
  unfold finalized; simpl; do 4 eexists;
  split; [reflexivity | split; [reflexivity | eassumption]].

Ltac grown :=
  unfold extends; simpl; rewrite <- ?app_assoc;
  first
    [ exists []; split; [now rewrite app_nil_r | apply Forall_nil]
    | eexists; split;
      [ reflexivity
      | repeat (apply Forall_cons; [first [exact I | finalized_now] |]);
        apply Forall_nil ] ].

Lemma newMusig_quietly env keys :
  preserves (quietly (pipelineEffect env)) (newMusig keys).
Proof. unfold newMusig. frame. Qed.

Lemma musigCall_quietly env m c :
  preserves (quietly (pipelineEffect env)) (musigCall env m c).
Proof. unfold musigCall. frame. Qed.

#[export] Hint Resolve newMusig_quietly musigCall_quietly : frame.

Lemma performChainSwapClaim_quietly env cd ent sig :
  preserves (quietly (pipelineEffect env)) (performChainSwapClaim env cd ent sig).
Proof.
  intros w.
  destruct (performChainSwapClaim env cd ent sig w) as [r w1] eqn:H.
  unfold performChainSwapClaim, setWitness0, musigCall, bind, orThrow, ret, throw,
    emit in H.
  destruct sig as [pubNonce partialSignature]. simpl in H.
  crack H.
  all: injection H as <- <-.
  all: split; [reflexivity | grown].
Qed.

#[export] Hint Resolve performChainSwapClaim_quietly : frame.

Lemma claimSteps_quietly v env ent hex :
  preserves (quietly (pipelineEffect env)) (claimSteps v env ent hex).
Proof.
  unfold claimSteps, createClaimTransaction, getBoltzPartialSignature, targetFee.
  cbv zeta. frame.
Qed.

Lemma quiet_effects env added :
  Forall (failureEffect env) added ->
  unsubscribeCalls added = [] /\ subscribeCalls added = [] /\
  Forall (finalized env) (broadcasts added).
Proof.
  induction 1 as [| e rest He _ (IHu & IHs & IHb)]; simpl.
  - repeat split; constructor.
  - destruct e; simpl in *; try contradiction; repeat split; auto.
Qed.

Lemma pipelineEffect_failureEffect env e : pipelineEffect env e -> failureEffect env e.
Proof. destruct e; simpl; auto. Qed.

Lemma unsubscribeCalls_app a b :
  unsubscribeCalls (a ++ b) = unsubscribeCalls a ++ unsubscribeCalls b.
Proof. unfold unsubscribeCalls. apply flat_map_app. Qed.

(* ------------------------------------------------------------------ *)
(** ** A claim attempt that succeeds *)

Lemma eqb_succ_l n : (S n =? n)%nat = false.
Proof. apply Nat.eqb_neq. lia. Qed.

Lemma eqb_succ_r n : (n =? S n)%nat = false.
Proof. apply Nat.eqb_neq. lia. Qed.

#[local] Arguments Nat.eqb : simpl never.

(** Everything a successful run of the three steps did, as far as the
    properties below need it. *)
Lemma claimSteps_succeeds v env ent hex w w' :
  claimSteps v env ent hex w = (Ok tt, w') ->
  status w' = status w /\
  exists added tx i signature claimSession,
    trace w' = trace w ++ added /\
    unsubscribeCalls added = [] /\
    map opOf (callsOn (sessions w) added) =
      [tweak; getPublicNonce; aggregateNonces; initializeSession; addPartial;
       signPartial; aggregatePartials] /\
    map opOf (callsOn (S (sessions w)) added) =
      [tweak; aggregateNonces; initializeSession; signPartial; getPublicNonce] /\
    broadcasts added = [tx] /\
    ins tx = [i] /\ witness i = [signature] /\
    mid claimSession = sessions w /\
    map opOf (called claimSession) =
      [tweak; getPublicNonce; aggregateNonces; initializeSession; addPartial;
       signPartial] /\
    musigAnswer env claimSession AggregatePartials = Some signature /\
    List.length (outs tx) =
      match v with BitcoinClaimer => 1%nat | LiquidClaimer => 2%nat end.
Proof.
  intros H.
  unfold claimSteps, createClaimTransaction, getBoltzPartialSignature,
    performChainSwapClaim, targetFee, setWitness0, newMusig, musigCall, bind,
    orThrow, ret, throw, emit, randomBytes, nextSession in H.
  simpl in H.
  crack H.
  all: injection H as <-.
  all: repeat match goal with
              | C : constructClaimTransaction _ _ _ _ _ = Some _ |- _ =>
                  unfold constructClaimTransaction in C;
                  destruct (_ <=? _)%Z in C; [discriminate C |];
                  injection C as <-
              end.
  all: match goal with
       | I : ins _ = _ :: _ |- _ => simpl in I; injection I as <- <-
       end.
  all: simpl; rewrite <- ?app_assoc.
  all: split; [reflexivity |].
  all: do 5 eexists; split; [reflexivity |].
  all: simpl; rewrite ?Nat.eqb_refl, ?eqb_succ_l, ?eqb_succ_r; simpl.
  all: repeat split.
  all: try match goal with
           | A : musigAnswer _ _ AggregatePartials = Some _
             |- musigAnswer _ _ AggregatePartials = Some _ => exact A
           end.
  all: reflexivity.
Qed.

(** C8.  After a claim attempt that succeeds, exactly one transaction has
    been handed to the broadcast; it has a single input, and the witness of
    that input has exactly one element: the signature [aggregatePartials]
    returned on the claim session of this attempt.  Nothing else is in the
    witness; in particular the 32-byte preimage is not (the signature has 64
    bytes). *)
Theorem cooperative_witness_is_the_aggregated_signature
    (v : Service) (env : Env) (ent : WithdrawChainSwapTransaction)
    (hex : option string) (w w' : World) :
  claimSteps v env ent hex w = (Ok tt, w') ->
  exists added tx i signature claimSession,
    trace w' = trace w ++ added /\
    broadcasts added = [tx] /\
    ins tx = [i] /\
    witness i = [signature] /\
    mid claimSession = sessions w /\
    musigAnswer env claimSession AggregatePartials = Some signature /\
    (forall x, In x (witness i) -> x = signature) /\
    (List.length signature = 64%nat -> List.length (preimage ent) = 32%nat ->
     ~ In (preimage ent) (witness i)).
Proof.
  intros H.
  destruct (claimSteps_succeeds _ _ _ _ _ _ H)
    as (_ & added & tx & i & signature & m & T & _ & _ & _ & B & I & W & Mi & _ & A & _).
  exists added, tx, i, signature, m.
  repeat split; try assumption.
  - rewrite W. intros x [<- | []]. reflexivity.
  - intros L64 L32. rewrite W. intros [E | []].
    rewrite <- E, L64 in L32. discriminate L32.
Qed.

Lemma cooperative_witness_is_the_aggregated_signature_witness :
  exists added tx i signature claimSession,
    trace (snd (claimSteps BitcoinClaimer Scenario.env Scenario.entity
                  (Some "lockup") (Scenario.world CLAIM_PENDING)))
      = trace (Scenario.world CLAIM_PENDING) ++ added /\
    broadcasts added = [tx] /\
    ins tx = [i] /\
    witness i = [signature] /\
    mid claimSession = sessions (Scenario.world CLAIM_PENDING) /\
    musigAnswer Scenario.env claimSession AggregatePartials = Some signature /\
    (forall x, In x (witness i) -> x = signature) /\
    (List.length signature = 64%nat ->
     List.length (preimage Scenario.entity) = 32%nat ->
     ~ In (preimage Scenario.entity) (witness i)).
Proof.
  apply (cooperative_witness_is_the_aggregated_signature BitcoinClaimer
           Scenario.env Scenario.entity (Some "lockup")
           (Scenario.world CLAIM_PENDING)).
  vm_compute. reflexivity.
Defined.

(** C5, as the code has it.  In a claim attempt that succeeds, the claim
    session is driven in the order tweak, aggregateNonces,
    initializeSession, addPartial, signPartial, aggregatePartials: the
    remote partial signature is recorded before the local one is made, and
    aggregatePartials comes last.  The second session of the attempt (for
    the service's own claim) is driven tweak, aggregateNonces,
    initializeSession, signPartial and nothing more. *)
Theorem signing_operations_in_code_order
    (v : Service) (env : Env) (ent : WithdrawChainSwapTransaction)
    (hex : option string) (w w' : World) :
  claimSteps v env ent hex w = (Ok tt, w') ->
  exists added,
    trace w' = trace w ++ added /\
    signingOps (callsOn (sessions w) added) =
      [tweak; aggregateNonces; initializeSession; addPartial; signPartial;
       aggregatePartials] /\
    signingOps (callsOn (S (sessions w)) added) =
      [tweak; aggregateNonces; initializeSession; signPartial].
Proof.
  intros H.
  destruct (claimSteps_succeeds _ _ _ _ _ _ H)
    as (_ & added & tx & i & signature & m & T & _ & C1 & C2 & _).
  exists added. unfold signingOps. rewrite C1, C2. repeat split. exact T.
Qed.

Lemma signing_operations_in_code_order_witness :
  exists added,
    trace (snd (claimSteps BitcoinClaimer Scenario.env Scenario.entity
                  (Some "lockup") (Scenario.world CLAIM_PENDING)))
      = trace (Scenario.world CLAIM_PENDING) ++ added /\
    signingOps (callsOn (sessions (Scenario.world CLAIM_PENDING)) added) =
      [tweak; aggregateNonces; initializeSession; addPartial; signPartial;
       aggregatePartials] /\
    signingOps (callsOn (S (sessions (Scenario.world CLAIM_PENDING))) added) =
      [tweak; aggregateNonces; initializeSession; signPartial].
Proof.
  apply (signing_operations_in_code_order BitcoinClaimer Scenario.env
           Scenario.entity (Some "lockup") (Scenario.world CLAIM_PENDING)).
  vm_compute. reflexivity.
Defined.

(** C5, as stated, fails: in the scenario the attempt succeeds, and the
    operations of its claim session are not in the listed order, because
    addPartial precedes signPartial. *)
Lemma listed_signing_order_not_followed :
  fst (claimSteps BitcoinClaimer Scenario.env Scenario.entity (Some "lockup")
         (Scenario.world CLAIM_PENDING)) = Ok tt /\
  signingOps
    (callsOn 0
       (trace (snd (claimSteps BitcoinClaimer Scenario.env Scenario.entity
                      (Some "lockup") (Scenario.world CLAIM_PENDING)))))
    = [tweak; aggregateNonces; initializeSession; addPartial; signPartial;
       aggregatePartials] /\
  signingOps
    (callsOn 0
       (trace (snd (claimSteps BitcoinClaimer Scenario.env Scenario.entity
                      (Some "lockup") (Scenario.world CLAIM_PENDING)))))
    <> listedOrder.
Proof.
  split; [vm_compute; reflexivity | split; [vm_compute; reflexivity |]].
  vm_compute. discriminate.
Qed.

(* ------------------------------------------------------------------ *)
(** ** The lifecycle *)

(** What the case for "transaction.claimed" does in each class: both write
    [CLAIM_CONFIRMED]; only the confidential-chain class unsubscribes. *)
Lemma claimed_case_in_both_classes env ent user msg a w :
  tracked ent msg a ->
  arg_status a = "transaction.claimed" ->
  status (snd (Btc.onMessage env ent user msg w)) = CLAIM_CONFIRMED /\
  trace (snd (Btc.onMessage env ent user msg w))
    = trace w ++ [EUpdateStatus (id ent) CLAIM_CONFIRMED None] /\
  status (snd (Liquid.onMessage env ent user msg w)) = CLAIM_CONFIRMED /\
  unsubscribeCalls (trace (snd (Liquid.onMessage env ent user msg w)))
    = unsubscribeCalls (trace w) ++ [("swap.update", [swapId ent])].
Proof.
  intros Ht Hs.
  pose proof (onMessage_tracked BitcoinClaimer env ent user msg a Ht) as B.
  pose proof (onMessage_tracked LiquidClaimer env ent user msg a Ht) as L.
  simpl in B, L. rewrite B, L.
  unfold Btc.dispatch, Liquid.dispatch. rewrite Hs. simpl.
  unfold tryCatch, finishChainSwap, updateChainSwapStatus, unsubscribe, bind, emit,
    setStatus, isOpen, ret. simpl.
  repeat split.
  - destruct (wsOpen w); reflexivity.
  - destruct (wsOpen w); simpl; rewrite !unsubscribeCalls_app; simpl;
      now rewrite ?app_nil_r.
Qed.

(** C3, on the Bitcoin-side class.  The canonical sequence, with a claim
    pipeline that succeeds (one transaction is broadcast), takes the status
    through [LOCKUP_PENDING], [LOCKUP_CONFIRMED], [CLAIM_PENDING] to
    [CLAIM_CONFIRMED], and no unsubscribe is ever issued.  The same
    sequence through the confidential-chain class ends in [CLAIM_CONFIRMED]
    with exactly one unsubscribe, for the tracked swap. *)
Theorem btc_canonical_run_issues_no_unsubscribe :
  statusesAlong (listener BitcoinClaimer Scenario.entity "test-user-id")
    Scenario.canonical (Scenario.world CREATED)
    = [LOCKUP_PENDING; LOCKUP_CONFIRMED; CLAIM_PENDING; CLAIM_PENDING;
       CLAIM_CONFIRMED] /\
  List.length
    (broadcasts
       (trace (deliver (listener BitcoinClaimer Scenario.entity "test-user-id")
                 Scenario.canonical (Scenario.world CREATED)))) = 1%nat /\
  unsubscribeCalls
    (trace (deliver (listener BitcoinClaimer Scenario.entity "test-user-id")
              Scenario.canonical (Scenario.world CREATED))) = [] /\
  status (deliver (listener LiquidClaimer Scenario.entity "test-user-id")
            Scenario.canonical (Scenario.world CREATED)) = CLAIM_CONFIRMED /\
  unsubscribeCalls
    (trace (deliver (listener LiquidClaimer Scenario.entity "test-user-id")
              Scenario.canonical (Scenario.world CREATED)))
    = [("swap.update", ["swap1"])].
Proof. vm_compute. repeat split. Qed.

(** C4, as stated, fails.  A lockup event followed by a creation event takes
    the status from [LOCKUP_CONFIRMED] back to [LOCKUP_PENDING]; and a
    creation event delivered in the terminal status [CLAIM_CONFIRMED] takes
    it to [LOCKUP_PENDING]. *)
Lemma status_moves_backwards :
  ~ forwardOnly CREATED
      (statusesAlong (listener BitcoinClaimer Scenario.entity "test-user-id")
         [ (Scenario.env, Scenario.update "transaction.lockup" (Some "userLockup"));
           (Scenario.env, Scenario.update "swap.created" None) ]
         (Scenario.world CREATED)) /\
  ~ forwardOnly CLAIM_CONFIRMED
      (statusesAlong (listener BitcoinClaimer Scenario.entity "test-user-id")
         [ (Scenario.env, Scenario.update "swap.created" None) ]
         (Scenario.world CLAIM_CONFIRMED)).
Proof.
  split.
  - vm_compute. intros (_ & (_ & Hback) & _).
    apply Hback; [discriminate | reflexivity].
  - vm_compute. intros ((Hterm & _) & _).
    discriminate (Hterm eq_refl).
Qed.

Ltac settle_status w :=
  simpl;
  unfold tryCatch, updateChainSwapStatus, unsubscribe, bind, emit, setStatus,
    isOpen, ret; simpl;
  try (destruct (wsOpen w)); reflexivity.

(** C4, as the code has it.  The listener never reads the status: for a
    message for the tracked swap, the status afterwards is the one the case
    of the event writes, whatever the status was before.  Only
    "transaction.server.confirmed" and unrecognised events leave it as it
    was (the former when the claim attempt succeeds; it writes
    [CLAIM_FAILED] when the attempt throws). *)
Theorem btc_status_written_regardless_of_status_before
    (env : Env) (ent : WithdrawChainSwapTransaction) (user : string)
    (msg : Message) (a : UpdateArg) (w : World) :
  tracked ent msg a ->
  (arg_status a = "swap.created" ->
   status (snd (Btc.onMessage env ent user msg w)) = LOCKUP_PENDING) /\
  (arg_status a = "transaction.lockup" ->
   status (snd (Btc.onMessage env ent user msg w)) = LOCKUP_CONFIRMED) /\
  (arg_status a = "transaction.server.mempool" ->
   status (snd (Btc.onMessage env ent user msg w)) = CLAIM_PENDING) /\
  (arg_status a = "transaction.server.confirmed" ->
   status (snd (Btc.onMessage env ent user msg w)) =
     match fst (claimSteps BitcoinClaimer env ent (transactionHex a) w) with
     | Ok _ => status w
     | Throw _ => CLAIM_FAILED
     end) /\
  (arg_status a = "transaction.claimed" ->
   status (snd (Btc.onMessage env ent user msg w)) = CLAIM_CONFIRMED) /\
  (arg_status a = "transaction.lockupFailed" ->
   status (snd (Btc.onMessage env ent user msg w)) = LOCKUP_FAILED) /\
  (arg_status a = "transaction.claimFailed" ->
   status (snd (Btc.onMessage env ent user msg w)) = CLAIM_FAILED) /\
  (arg_status a = "swap.expired" ->
   status (snd (Btc.onMessage env ent user msg w)) = LOCKUP_FAILED) /\
  (~ In (arg_status a)
       ["swap.created"; "transaction.lockup"; "transaction.server.mempool";
        "transaction.server.confirmed"; "transaction.claimed";
        "transaction.lockupFailed"; "transaction.claimFailed"; "swap.expired"] ->
   snd (Btc.onMessage env ent user msg w) = w).
Proof.
  intros Ht.
  pose proof (onMessage_tracked BitcoinClaimer env ent user msg a Ht) as B.
  simpl in B. rewrite B. unfold Btc.dispatch.
  repeat split; intros Hs; try (rewrite Hs; settle_status w).
  - rewrite Hs. simpl. unfold Btc.broadcastCoSignedClaimTransaction, tryCatch.
    destruct (claimSteps_quietly BitcoinClaimer env ent (transactionHex a) w)
      as [S _].
    destruct (claimSteps BitcoinClaimer env ent (transactionHex a) w)
      as [[[] | e] w1]; simpl in *.
    + exact S.
    + unfold updateChainSwapStatus, unsubscribe, bind, emit, setStatus, isOpen,
        ret, throw. simpl. destruct (wsOpen w1); reflexivity.
  - repeat match goal with
           | |- context [if (?x =? ?y)%string then _ else _] =>
               destruct (String.eqb_spec x y) as [E | _];
               [ exfalso; apply Hs; rewrite E; simpl; tauto | ]
           end.
    reflexivity.
Qed.

Lemma btc_status_written_regardless_of_status_before_witness :
  status (snd (Btc.onMessage Scenario.env Scenario.entity "test-user-id"
                 (Scenario.update "swap.created" None)
                 (Scenario.world CLAIM_CONFIRMED))) = LOCKUP_PENDING.
Proof.
  apply (btc_status_written_regardless_of_status_before Scenario.env
           Scenario.entity "test-user-id" (Scenario.update "swap.created" None)
           {| arg_id := "swap1"; arg_status := "swap.created";
              arg_transaction := Some {| tx_id := Some "txid"; tx_hex := None |} |}
           (Scenario.world CLAIM_CONFIRMED)).
  - repeat split; reflexivity.
  - reflexivity.
Defined.

(* ------------------------------------------------------------------ *)
(** ** Detection *)

Lemma matchesKey_embedded key o :
  matchesKey key o = true <-> embeddedKey (script o) = Some key.
Proof.
  unfold matchesKey, bytes_eqb.
  destruct (embeddedKey (script o)) as [k |]; [| split; discriminate].
  destruct (list_eq_dec byte_eq_dec k key) as [-> | N]; split; intros H.
  - reflexivity.
  - reflexivity.
  - discriminate H.
  - injection H as ->. now elim N.
Qed.

Lemma detectSwapFrom_none key os :
  forall n,
    detectSwapFrom key n os = None <->
    (forall o, In o os -> embeddedKey (script o) <> Some key).
Proof.
  induction os as [| o rest IH]; intros n; simpl.
  - split; [intros _ o [] | reflexivity].
  - destruct (matchesKey key o) eqn:E.
    + split; [discriminate |]. intros H.
      apply matchesKey_embedded in E. elim (H o (or_introl eq_refl) E).
    + rewrite IH. split.
      * intros H o' [<- | Hin]; [| now apply H].
        intros C. apply matchesKey_embedded in C. congruence.
      * intros H o' Hin. apply H. now right.
Qed.

(** The output [detectSwap] returns is the first one that carries the
    key. *)
Lemma detectSwapFrom_first key os :
  forall n found,
    detectSwapFrom key n os = Some found ->
    exists k out,
      vout found = (n + k)%nat /\
      nth_error os k = Some out /\
      embeddedKey (script out) = Some key /\
      so_value found = value out /\
      so_script found = script out /\
      forall j o, (j < k)%nat -> nth_error os j = Some o ->
                  embeddedKey (script o) <> Some key.
Proof.
  induction os as [| o rest IH]; intros n found H; simpl in H.
  - discriminate H.
  - destruct (matchesKey key o) eqn:E.
    + injection H as <-. exists 0%nat, o. simpl.
      repeat split; [lia | now apply matchesKey_embedded |].
      intros j o' Hj. lia.
    + destruct (IH _ _ H) as (k & out & Hv & Hn & Hk & Hval & Hs & Hfirst).
      exists (S k), out. simpl. repeat split; try assumption; [lia |].
      intros [| j] o' Hj Hnth; simpl in Hnth.
      * injection Hnth as <-. intros C.
        apply matchesKey_embedded in C. congruence.
      * apply (Hfirst j); [lia | assumption].
Qed.

#[local] Arguments drawn : simpl never.

(** C2, as the code has it.  When no output of the lockup transaction
    carries the tweaked key, [createClaimTransaction] throws "No swap output
    found in lockup transaction"; the listener maps it to [CLAIM_FAILED] and
    unsubscribes.  Nothing is retried: after the session is made and
    tweaked, the only calls are the two status writes and the
    unsubscribe. *)
Theorem missing_swap_output_fails_the_claim
    (env : Env) (ent : WithdrawChainSwapTransaction) (user : string)
    (msg : Message) (a : UpdateArg) (w : World)
    (tree key : bytes) (h : string) (tx : Transaction) :
  tracked ent msg a ->
  arg_status a = "transaction.server.confirmed" ->
  transactionHex a = Some h ->
  deserializeSwapTree env (claimSwapTree ent) = Some tree ->
  musigAnswer env
    {| mid := sessions w; seed := seedAt w (draws w);
       publicKeys := [claimPublicKey ent; keyPair_publicKey env];
       called := [] |}
    (TweakMusig tree) = Some key ->
  Transaction_fromHex env h = Some tx ->
  (forall o, In o (outs tx) -> embeddedKey (script o) <> Some key) ->
  fst (createClaimTransaction BitcoinClaimer env (preimage ent) ent (Some h) w)
    = Throw "No swap output found in lockup transaction" /\
  fst (Btc.onMessage env ent user msg w) = Ok tt /\
  status (snd (Btc.onMessage env ent user msg w)) = CLAIM_FAILED /\
  trace (snd (Btc.onMessage env ent user msg w))
    = trace w ++
      [ ENewMusig (sessions w) (seedAt w (draws w))
          [claimPublicKey ent; keyPair_publicKey env];
        EMusig (sessions w) (TweakMusig tree);
        EUpdateStatus (id ent) CLAIM_FAILED None;
        EUpdateStatus (id ent) CLAIM_FAILED None;
        EUnsubscribe "swap.update" [swapId ent] ] ++
      (if wsOpen w then [EWsSend "unsubscribe" "swap.update" [swapId ent]]
       else []).
Proof.
  intros Ht Hs Hh Htree Hkey Htx Hnone.
  assert (D : detectSwap key tx = None).
  { unfold detectSwap. now apply detectSwapFrom_none. }
  pose proof (onMessage_tracked BitcoinClaimer env ent user msg a Ht) as B.
  simpl in B. rewrite B. unfold Btc.dispatch. rewrite Hs. simpl.
  unfold Btc.broadcastCoSignedClaimTransaction, claimSteps,
    createClaimTransaction, newMusig, musigCall, tryCatch, updateChainSwapStatus,
    unsubscribe, bind, orThrow, emit, setStatus, isOpen, randomBytes, nextSession,
    ret, throw, seedAt in *.
  simpl. rewrite Hh, Htree. simpl. rewrite Hkey. simpl. rewrite Htx. simpl.
  rewrite D. simpl.
  destruct (wsOpen w); simpl; rewrite <- ?app_assoc; repeat split.
Qed.

Lemma missing_swap_output_fails_the_claim_witness :
  fst (createClaimTransaction BitcoinClaimer Scenario.env
         (preimage Scenario.entity) Scenario.entity (Some "stray")
         (Scenario.world CLAIM_PENDING))
    = Throw "No swap output found in lockup transaction" /\
  fst (Btc.onMessage Scenario.env Scenario.entity "test-user-id"
         (Scenario.update "transaction.server.confirmed" (Some "stray"))
         (Scenario.world CLAIM_PENDING)) = Ok tt /\
  status (snd (Btc.onMessage Scenario.env Scenario.entity "test-user-id"
                 (Scenario.update "transaction.server.confirmed" (Some "stray"))
                 (Scenario.world CLAIM_PENDING))) = CLAIM_FAILED /\
  trace (snd (Btc.onMessage Scenario.env Scenario.entity "test-user-id"
                (Scenario.update "transaction.server.confirmed" (Some "stray"))
                (Scenario.world CLAIM_PENDING)))
    = trace (Scenario.world CLAIM_PENDING) ++
      [ ENewMusig 0 (seedAt (Scenario.world CLAIM_PENDING) 0)
          [Scenario.serverKey; Scenario.localKey];
        EMusig 0 (TweakMusig (repeat x33 32));
        EUpdateStatus 1 CLAIM_FAILED None;
        EUpdateStatus 1 CLAIM_FAILED None;
        EUnsubscribe "swap.update" ["swap1"] ] ++
      [EWsSend "unsubscribe" "swap.update" ["swap1"]].
Proof.
  apply (missing_swap_output_fails_the_claim Scenario.env Scenario.entity
           "test-user-id"
           (Scenario.update "transaction.server.confirmed" (Some "stray"))
           {| arg_id := "swap1"; arg_status := "transaction.server.confirmed";
              arg_transaction :=
                Some {| tx_id := Some "txid"; tx_hex := Some "stray" |} |}
           (Scenario.world CLAIM_PENDING)
           (repeat x33 32) Scenario.tweakedKey "stray" Scenario.strayTx).
  - repeat split; reflexivity.
  - reflexivity.
  - reflexivity.
  - reflexivity.
  - reflexivity.
  - reflexivity.
  - intros o Hin. simpl in Hin.
    destruct Hin as [<- | [<- | []]]; vm_compute; discriminate.
Defined.

(** C2, as stated, fails.  The lockup transaction of this run has no output
    for the tweaked key, and the swap is not left recoverable: it ends in
    [CLAIM_FAILED] and is unsubscribed. *)
Lemma missing_output_is_not_recoverable :
  detectSwap Scenario.tweakedKey Scenario.strayTx = None /\
  locallyFailed
    (snd (Btc.onMessage Scenario.env Scenario.entity "test-user-id"
            (Scenario.update "transaction.server.confirmed" (Some "stray"))
            (Scenario.world CLAIM_PENDING))) /\
  ~ leftRecoverable
      (Scenario.world CLAIM_PENDING)
      (snd (Btc.onMessage Scenario.env Scenario.entity "test-user-id"
              (Scenario.update "transaction.server.confirmed" (Some "stray"))
              (Scenario.world CLAIM_PENDING))).
Proof.
  split; [reflexivity | split; [right; reflexivity |]].
  intros [_ U]. vm_compute in U. discriminate U.
Qed.

(* ------------------------------------------------------------------ *)
(** ** Amounts *)

Lemma calculateLockupSend_returns env amount w sp w' :
  Btc.calculateLockupSend env amount w = (Ok sp, w') ->
  exists fees,
    getChainSwapFee env = Some fees /\
    getNetworkFee env "BTC" = Some (sp_feeRate sp) /\
    sp_minerFees sp = jsAdd (minerFees_server fees) (minerFees_user_claim fees) /\
    lockupAmount sp = lockupAmountFor amount (sp_minerFees sp) (percentage fees) /\
    sp_boltzFee sp = jsSub (jsSub (lockupAmount sp) amount) (sp_minerFees sp).
Proof.
  intros H.
  unfold Btc.calculateLockupSend, bind, orThrow, emit, ret, throw in H.
  simpl in H. crack H. injection H as <- <-.
  eexists. repeat split.
Qed.

(** The arithmetic is that of doubles: for 3285 sats at 6 percent with miner
    fees of 522 the quotient 3807 / 0.94 comes out just above 4050, and the
    lockup amount is 4051, one more than the exact quotient asks for; the
    same happens for 15507 sats at 1.36 percent.  At 100 percent the divisor
    is 0 and the lockup amount is not finite. *)
Example lockupAmountFor_rounds_as_doubles_do :
  lockupAmountFor 3285 522 6 = Int 4051 /\
  Qceiling (inject_Z (3285 + 522) / (1 - 6 / 100))%Q = 4050 /\
  lockupAmountFor 15507 522 (136 # 100) = Int 16251 /\
  Qceiling (inject_Z (15507 + 522) / (1 - (136 # 100) / 100))%Q = 16250 /\
  lockupAmountFor 25000 522 (1 # 10) = Int 25548 /\
  lockupAmountFor 25000 522 100 = Infinity.
Proof. vm_compute. repeat split. Qed.

(** C7, as the code has it.  Claim-build tweaks a fresh session with the
    claim tree, parses the lockup transaction, selects its first output that
    carries the tweaked key and produces a transaction with one input, which
    spends that output, and a single output, which pays the user's address
    the value of that output less the fee [targetFee] settled on for the
    entity's fee rate.  The miner fees and the service fee of the schedule
    are not subtracted there: they enter [calculateLockupSend] only, where,
    in the arithmetic of doubles, [minerFees] is the sum of the two miner
    fees of the schedule,
    [lockupAmount = ceil((amount + minerFees) / (1 - percentage/100))] and
    [boltzFee = lockupAmount - amount - minerFees]. *)
Theorem claim_output_is_detected_value_less_settled_fee
    (env : Env) (pre : bytes) (ent : WithdrawChainSwapTransaction)
    (hex : option string) (w w' : World) (cd : ClaimTransactionDetails)
    (amount : Z) (w0 w0' : World) (sp : SendParams) :
  createClaimTransaction BitcoinClaimer env pre ent hex w = (Ok cd, w') ->
  Btc.calculateLockupSend env amount w0 = (Ok sp, w0') ->
  (exists h tree key lockupTx out fee destinationScript,
     hex = Some h /\
     deserializeSwapTree env (claimSwapTree ent) = Some tree /\
     musigAnswer env
       {| mid := sessions w; seed := seedAt w (draws w);
          publicKeys := [claimPublicKey ent; keyPair_publicKey env];
          called := [] |} (TweakMusig tree) = Some key /\
     Transaction_fromHex env h = Some lockupTx /\
     detectSwap key lockupTx = Some (cd_swapOutput cd) /\
     nth_error (outs lockupTx) (vout (cd_swapOutput cd)) = Some out /\
     embeddedKey (script out) = Some key /\
     (forall j o, (j < vout (cd_swapOutput cd))%nat ->
                  nth_error (outs lockupTx) j = Some o ->
                  embeddedKey (script o) <> Some key) /\
     so_value (cd_swapOutput cd) = value out /\
     so_script (cd_swapOutput cd) = script out /\
     toOutputScript env (userAddress ent) = Some destinationScript /\
     settleFee env (feeRate ent)
       (fun fee =>
          constructClaimTransaction BitcoinClaimer (cd_swapOutput cd)
            (getHash env lockupTx) destinationScript fee) = Some fee /\
     cd_transaction cd
       = {| ins := [ {| hash := getHash env lockupTx;
                        index := vout (cd_swapOutput cd);
                        witness := [dummyTaprootSignature] |} ];
            outs := [ {| value := value out - fee;
                         script := destinationScript |} ] |} /\
     0 < value out - fee) /\
  (exists fees,
     getChainSwapFee env = Some fees /\
     getNetworkFee env "BTC" = Some (sp_feeRate sp) /\
     sp_minerFees sp = jsAdd (minerFees_server fees) (minerFees_user_claim fees) /\
     lockupAmount sp = lockupAmountFor amount (sp_minerFees sp) (percentage fees) /\
     sp_boltzFee sp = jsSub (jsSub (lockupAmount sp) amount) (sp_minerFees sp)).
Proof.
  intros H L. split.
  - unfold createClaimTransaction, targetFee, newMusig, musigCall, bind, orThrow,
      ret, throw, emit, randomBytes, nextSession in H.
    simpl in H. crack H. injection H as <- <-. simpl.
    match goal with
    | D : detectSwap ?key ?tx = Some ?found |- _ =>
        destruct (detectSwapFrom_first _ _ _ _ D)
          as (k & out & Hv & Hn & Hk & Hval & Hscr & Hfirst)
    end.
    match goal with
    | C : constructClaimTransaction _ _ _ _ ?fee = Some _ |- _ =>
        unfold constructClaimTransaction in C;
        destruct (Z.leb_spec (so_value s0 - fee) 0) as [| Hpos] in C;
          [discriminate C |];
        injection C as <-
    end.
    simpl in Hv.
    do 3 eexists. exists t, out. do 2 eexists.
    unfold seedAt.
    repeat split; try eassumption; try congruence.
    rewrite Hv. exact Hfirst.
  - exact (calculateLockupSend_returns _ _ _ _ _ L).
Qed.

Lemma claim_output_is_detected_value_less_settled_fee_witness :
  (exists h tree key lockupTx out fee destinationScript,
     Some "lockup" = Some h /\
     deserializeSwapTree Scenario.env (claimSwapTree Scenario.entity) = Some tree /\
     musigAnswer Scenario.env
       {| mid := 0; seed := seedAt (Scenario.world CLAIM_PENDING) 0;
          publicKeys := [claimPublicKey Scenario.entity;
                         keyPair_publicKey Scenario.env];
          called := [] |} (TweakMusig tree) = Some key /\
     Transaction_fromHex Scenario.env h = Some lockupTx /\
     detectSwap key lockupTx
       = Some {| vout := 1; so_value := 25222;
                 so_script := x51 :: x20 :: Scenario.tweakedKey |} /\
     nth_error (outs lockupTx) 1 = Some out /\
     embeddedKey (script out) = Some key /\
     (forall j o, (j < 1)%nat ->
                  nth_error (outs lockupTx) j = Some o ->
                  embeddedKey (script o) <> Some key) /\
     25222 = value out /\
     x51 :: x20 :: Scenario.tweakedKey = script out /\
     toOutputScript Scenario.env (userAddress Scenario.entity)
       = Some destinationScript /\
     settleFee Scenario.env (feeRate Scenario.entity)
       (fun fee =>
          constructClaimTransaction BitcoinClaimer
            {| vout := 1; so_value := 25222;
               so_script := x51 :: x20 :: Scenario.tweakedKey |}
            (getHash Scenario.env lockupTx) destinationScript fee) = Some fee /\
     {| ins := [ {| hash := repeat xaa 32; index := 1;
                    witness := [dummyTaprootSignature] |} ];
        outs := [ {| value := 25022; script := Scenario.destinationScript |} ] |}
       = {| ins := [ {| hash := getHash Scenario.env lockupTx; index := 1;
                        witness := [dummyTaprootSignature] |} ];
            outs := [ {| value := value out - fee;
                         script := destinationScript |} ] |} /\
     0 < value out - fee) /\
  (exists fees,
     getChainSwapFee Scenario.env = Some fees /\
     getNetworkFee Scenario.env "BTC" = Some 2%Q /\
     Int 522 = jsAdd (minerFees_server fees) (minerFees_user_claim fees) /\
     Int 25548 = lockupAmountFor 25000 (Int 522) (percentage fees) /\
     Int 26 = jsSub (jsSub (Int 25548) 25000) (Int 522)).
Proof.
  exact (claim_output_is_detected_value_less_settled_fee Scenario.env
           (preimage Scenario.entity) Scenario.entity (Some "lockup")
           (Scenario.world CLAIM_PENDING)
           (snd (createClaimTransaction BitcoinClaimer Scenario.env
                   (preimage Scenario.entity) Scenario.entity (Some "lockup")
                   (Scenario.world CLAIM_PENDING)))
           {| cd_musig :=
                {| mid := 0; seed := repeat x00 32;
                   publicKeys := [Scenario.serverKey; Scenario.localKey];
                   called := [TweakMusig (repeat x33 32)] |};
              cd_transaction :=
                {| ins := [ {| hash := repeat xaa 32; index := 1;
                               witness := [dummyTaprootSignature] |} ];
                   outs := [ {| value := 25022;
                                script := Scenario.destinationScript |} ] |};
              cd_swapOutput :=
                {| vout := 1; so_value := 25222;
                   so_script := x51 :: x20 :: Scenario.tweakedKey |};
              cd_boltzPublicKey := Scenario.serverKey |}
           25000 (Scenario.world CREATED)
           (snd (Btc.calculateLockupSend Scenario.env 25000 (Scenario.world CREATED)))
           {| lockupAmount := 25548; sp_minerFees := 522; sp_boltzFee := 26;
              sp_feeRate := 2%Q |}
           eq_refl eq_refl).
Defined.

(** C7, as stated, fails.  The entity is the one
    [startBoltzChainSwapWithListeners] makes for 25000 sats under the
    schedule of the scenario (miner fees 522, service fee 26).  Claim-build
    selects the output at index 1, worth 25222, and the fee settled for
    2 sat/vbyte is 200: the single output of the claim transaction is worth
    25022, which is not 25000 - 522 - 26. *)
Lemma scenario_output_is_not_amount_less_fees :
  fst (Btc.startBoltzChainSwapWithListeners Scenario.env
         "bcrt1qz2npm9j8uap52v8usgt08maqvtu7yumh0rfydq" 25000
         (Scenario.world CREATED))
    = Ok (Scenario.response, Scenario.entity) /\
  exists cd o,
    fst (createClaimTransaction BitcoinClaimer Scenario.env
           (preimage Scenario.entity) Scenario.entity (Some "lockup")
           (Scenario.world CLAIM_PENDING)) = Ok cd /\
    vout (cd_swapOutput cd) = 1%nat /\
    outs (cd_transaction cd) = [o] /\
    value o = 25022 /\
    expectedClaimValue 25000 Scenario.entity = Int 24452 /\
    Int (value o) <> expectedClaimValue 25000 Scenario.entity.
Proof.
  split; [vm_compute; reflexivity |].
  do 2 eexists.
  split; [vm_compute; reflexivity |].
  repeat split. vm_compute. discriminate.
Qed.

(* ------------------------------------------------------------------ *)
(** ** The whole of a successful claim attempt *)

(** The answers the collaborators gave in a successful attempt, and the
    world it leaves. *)
Lemma claimSteps_success_shape v env ent hex w w' :
  claimSteps v env ent hex w = (Ok tt, w') ->
  exists tree tweakedKey h lockupTx swapOutput destinationScript fee unsignedTx i
         claimNonce serverNonce transactionHash tree2 partialSig pubNonce2
         remoteNonce remotePartial sighash signature claimSession,
    w' = mkWorld (status w) (wsOpen w) (rng w) (S (S (draws w)))
           (S (S (sessions w)))
           (trace w ++
            [ ENewMusig (sessions w) (seedAt w (draws w))
                [claimPublicKey ent; keyPair_publicKey env];
              EMusig (sessions w) (TweakMusig tree);
              EMusig (sessions w) GetPublicNonce;
              EGetClaimDetails (claimDetailsEndpoint v) (swapId ent);
              ENewMusig (S (sessions w)) (seedAt w (S (draws w)))
                [lockupPublicKey ent; keyPair_publicKey env];
              EMusig (S (sessions w)) (TweakMusig tree2);
              EMusig (S (sessions w))
                (AggregateNonces [(lockupPublicKey ent, serverNonce)]);
              EMusig (S (sessions w)) (InitializeSession transactionHash);
              EMusig (S (sessions w)) SignPartial;
              EMusig (S (sessions w)) GetPublicNonce;
              EClaimChainSwap (swapId ent) (preimage ent) partialSig pubNonce2
                0%nat unsignedTx claimNonce;
              EMusig (sessions w)
                (AggregateNonces [(claimPublicKey ent, remoteNonce)]);
              EMusig (sessions w) (InitializeSession sighash);
              EMusig (sessions w) (AddPartial (claimPublicKey ent) remotePartial);
              EMusig (sessions w) SignPartial;
              EMusig (sessions w) AggregatePartials;
              EClaimBTC {| ins := [ {| hash := hash i; index := index i;
                                       witness := [signature] |} ];
                           outs := outs unsignedTx |} ]) /\
    hex = Some h /\
    deserializeSwapTree env (claimSwapTree ent) = Some tree /\
    musigAnswer env
      {| mid := sessions w; seed := seedAt w (draws w);
         publicKeys := [claimPublicKey ent; keyPair_publicKey env];
         called := [] |} (TweakMusig tree) = Some tweakedKey /\
    Transaction_fromHex env h = Some lockupTx /\
    detectSwap tweakedKey lockupTx = Some swapOutput /\
    toOutputScript env (userAddress ent) = Some destinationScript /\
    constructClaimTransaction v swapOutput (getHash env lockupTx)
      destinationScript fee = Some unsignedTx /\
    ins unsignedTx = [i] /\
    musigAnswer env
      {| mid := sessions w; seed := seedAt w (draws w);
         publicKeys := [claimPublicKey ent; keyPair_publicKey env];
         called := [TweakMusig tree] |} GetPublicNonce = Some claimNonce /\
    claimDetailsOf v env (swapId ent) = Some (serverNonce, transactionHash) /\
    deserializeSwapTree env (lockupSwapTree ent) = Some tree2 /\
    claimChainSwap env (swapId ent) (preimage ent) partialSig pubNonce2 0%nat
      unsignedTx claimNonce = Some (remoteNonce, remotePartial) /\
    hashForWitnessV1 env unsignedTx 0 [so_script swapOutput]
      [so_value swapOutput] = Some sighash /\
    mid claimSession = sessions w /\
    musigAnswer env claimSession AggregatePartials = Some signature.
Proof.
  intros H.
  unfold claimSteps, createClaimTransaction, getBoltzPartialSignature,
    performChainSwapClaim, targetFee, setWitness0, newMusig, musigCall, bind,
    orThrow, ret, throw, emit, randomBytes, nextSession in H.
  simpl in H.
  crack H.
  all: injection H as <-.
  all: repeat match goal with
              | C : constructClaimTransaction _ _ _ _ _ = Some ?t,
                I : ins ?t = _ :: _ |- _ =>
                  pose proof C as C';
                  unfold constructClaimTransaction in C';
                  destruct (_ <=? _)%Z in C'; [discriminate C' |];
                  injection C' as C';
                  rewrite <- C' in I; simpl in I; injection I as <- <-
              end.
  all: subst; unfold seedAt; simpl; rewrite <- ?app_assoc; simpl.
  all: do 8 eexists.
  all: exists {| hash := getHash env t; index := vout s0;
                 witness := [dummyTaprootSignature] |}.
  all: do 11 eexists.
  all: split; [repeat f_equal |].
  all: repeat split; try reflexivity; try eassumption.
  all: reflexivity.
Qed.

(* ------------------------------------------------------------------ *)
(** ** What a listener does and does not do *)

(** The walk of [frame], for a relation given with its preorder and a tactic
    for the primitive steps. *)
Ltac frame_in inst leaf :=
  repeat first
    [ lazymatch goal with
      | |- preserves _ (bind _ _) =>
          apply (@preserves_bind _ inst); [ | intros ? ]
      | |- preserves _ (ret _) => apply (@preserves_ret _ inst)
      | |- preserves _ (throw _) => apply (@preserves_throw _ inst)
      | |- preserves _ (orThrow _ _) => apply (@preserves_orThrow _ inst)
      | |- preserves _ isOpen => apply (@preserves_isOpen _ inst)
      | |- preserves _ (tryCatch _ _) =>
          apply (@preserves_tryCatch _ inst); [ | intros ? ]
      | |- preserves _ (match ?x with _ => _ end) => destruct x
      end
    | leaf ].

(** X1.  The callback of either class lets an exception out on one frame
    only.  On [null] it throws where it reads [msg.event], before its [try],
    and has done nothing.  On every other value, whatever the collaborators
    answer and whatever the world, it returns normally: the [catch] around
    the [switch] cannot itself throw. *)
Theorem callback_throws_on_null_only
    (v : Service) (env : Env) (ent : WithdrawChainSwapTransaction) (user : string)
    (parsed : Parsed) (w : World) :
  match parsed with
  | JsonNull => exists e, callbackOf v env ent user parsed w = (Throw e, w)
  | JsonValue _ => fst (callbackOf v env ent user parsed w) = Ok tt
  end.
Proof.
  destruct parsed as [| msg]; [eexists; reflexivity |].
  unfold callbackOf.
  assert (C : forall (m : M unit) w0,
             fst (tryCatch m
                    (fun _ => updateChainSwapStatus (id ent) CLAIM_FAILED None;;
                              unsubscribe "swap.update" [swapId ent]) w0) = Ok tt).
  { intros m w0. unfold tryCatch.
    destruct (m w0) as [[[] | e] w1]; [reflexivity |].
    unfold updateChainSwapStatus, unsubscribe, bind, emit, setStatus, isOpen, ret.
    simpl. destruct (wsOpen w1); reflexivity. }
  destruct v; simpl; unfold Btc.onMessage, Liquid.onMessage.
  all: destruct (notUpdate msg); [reflexivity |].
  all: destruct (firstArg msg) as [a |]; [| reflexivity].
  all: destruct (negb (arg_id a =? swapId ent)); [reflexivity | apply C].
Qed.

Lemma steadily_preorder P : PreOrder (steadily P).
Proof.
  split.
  - intros w. repeat split; reflexivity.
  - intros w1 w2 w3 (O1 & G1 & X1) (O2 & G2 & X2).
    repeat split; [congruence | congruence | now transitivity w2].
Qed.

Lemma emit_steadily (P : Effect -> Prop) e : P e -> preserves (steadily P) (emit e).
Proof.
  intros H w. repeat split.
  exists [e]. split; [reflexivity | now constructor].
Qed.

Lemma silent_steadily (P : Effect -> Prop) A (m : M A) :
  (forall w, wsOpen (snd (m w)) = wsOpen w /\ rng (snd (m w)) = rng w /\
             trace (snd (m w)) = trace w) ->
  preserves (steadily P) m.
Proof.
  intros H w. destruct (H w) as (O & G & T). repeat split; try assumption.
  exists []. rewrite T, app_nil_r. split; [reflexivity | constructor].
Qed.

Lemma setStatus_steadily P s : preserves (steadily P) (setStatus s).
Proof. apply silent_steadily. intros w. repeat split. Qed.

Lemma randomBytes_steadily P n : preserves (steadily P) (randomBytes n).
Proof. apply silent_steadily. intros w. repeat split. Qed.

Lemma nextSession_steadily P : preserves (steadily P) nextSession.
Proof. apply silent_steadily. intros w. repeat split. Qed.

Lemma claimSteps_listenerEffect v env ent hex :
  preserves (steadily listenerEffect) (claimSteps v env ent hex).
Proof.
  unfold claimSteps, createClaimTransaction, getBoltzPartialSignature,
    performChainSwapClaim, targetFee, setWitness0, newMusig, musigCall.
  cbv zeta.
  frame_in (steadily_preorder listenerEffect)
    ltac:(first [ apply setStatus_steadily | apply randomBytes_steadily
                | apply nextSession_steadily
                | apply emit_steadily; exact I ]).
Qed.

Lemma onMessage_listenerEffect v env ent user msg :
  preserves (steadily listenerEffect) (onMessageOf v env ent user msg).
Proof.
  destruct v; simpl;
    unfold Btc.onMessage, Btc.dispatch, Btc.broadcastCoSignedClaimTransaction,
      Liquid.onMessage, Liquid.dispatch, finishChainSwap, updateChainSwapStatus,
      unsubscribe;
    cbv zeta;
    frame_in (steadily_preorder listenerEffect)
      ltac:(first [ apply setStatus_steadily | apply claimSteps_listenerEffect
                  | apply emit_steadily; exact I ]).
Qed.

Lemma deliver_listenerEffect v ent user msgs :
  forall w, steadily listenerEffect w (deliver (listener v ent user) msgs w).
Proof.
  induction msgs as [| [env msg] rest IH]; intros w; simpl.
  - apply steadily_preorder.
  - eapply (@PreOrder_Transitive _ _ (steadily_preorder listenerEffect));
      [apply (onMessage_listenerEffect v env ent user msg w) | apply IH].
Qed.

Lemma listenerEffect_projections added :
  Forall listenerEffect added ->
  subscribeCalls added = [] /\ listens added = [] /\
  Forall (fun e => match e with
                   | EGetNetworkFee _ | EGetChainSwapFee | ECreateChainSwap _ => False
                   | _ => True
                   end) added.
Proof.
  induction 1 as [| e rest He _ (IHs & IHl & IHc)]; simpl.
  - repeat split; constructor.
  - destruct e; simpl in *; try contradiction; repeat split; auto.
Qed.

(** X2.  Along any run of either listener the socket flag and the entropy
    source stay as they were, and the listener never subscribes, never
    registers a further listener and never asks the service for fees or for
    a new swap. *)
Theorem listener_never_subscribes_or_creates
    (v : Service) (ent : WithdrawChainSwapTransaction) (user : string)
    (msgs : list (Env * Message)) (w : World) :
  wsOpen (deliver (listener v ent user) msgs w) = wsOpen w /\
  rng (deliver (listener v ent user) msgs w) = rng w /\
  exists added,
    trace (deliver (listener v ent user) msgs w) = trace w ++ added /\
    Forall listenerEffect added /\
    subscribeCalls added = [] /\
    listens added = [] /\
    Forall (fun e => match e with
                     | EGetNetworkFee _ | EGetChainSwapFee | ECreateChainSwap _ => False
                     | _ => True
                     end) added.
Proof.
  destruct (deliver_listenerEffect v ent user msgs w) as (O & G & added & T & F).
  destruct (listenerEffect_projections _ F) as (S & L & C).
  repeat split; try assumption. exists added. repeat split; assumption.
Qed.

(** *** Frames on the socket *)

Lemma sentFrames_app a b : sentFrames (a ++ b) = sentFrames a ++ sentFrames b.
Proof. unfold sentFrames. apply flat_map_app. Qed.

Lemma requestedFrames_app a b :
  requestedFrames (a ++ b) = requestedFrames a ++ requestedFrames b.
Proof. unfold requestedFrames. apply flat_map_app. Qed.

Lemma wired_preorder : PreOrder wired.
Proof.
  split.
  - intros w. split; [reflexivity |]. exists []. rewrite app_nil_r.
    split; [reflexivity | now destruct (wsOpen w)].
  - intros w1 w2 w3 (O1 & a1 & T1 & F1) (O2 & a2 & T2 & F2).
    split; [congruence |]. exists (a1 ++ a2). split.
    + now rewrite T2, T1, app_assoc.
    + rewrite sentFrames_app, requestedFrames_app, F1, F2, O1.
      now destruct (wsOpen w1).
Qed.

Lemma emit_wired e :
  sentFrames [e] = [] -> requestedFrames [e] = [] -> preserves wired (emit e).
Proof.
  intros S R w. split; [reflexivity |]. exists [e].
  split; [reflexivity |]. rewrite S, R. now destruct (wsOpen w).
Qed.

Lemma silent_wired A (m : M A) :
  (forall w, wsOpen (snd (m w)) = wsOpen w /\ trace (snd (m w)) = trace w) ->
  preserves wired m.
Proof.
  intros H w. destruct (H w) as (O & T). split; [assumption |].
  exists []. rewrite T, app_nil_r. split; [reflexivity | now destruct (wsOpen w)].
Qed.

Lemma setStatus_wired s : preserves wired (setStatus s).
Proof. apply silent_wired. intros w. split; reflexivity. Qed.

Lemma randomBytes_wired n : preserves wired (randomBytes n).
Proof. apply silent_wired. intros w. split; reflexivity. Qed.

Lemma nextSession_wired : preserves wired nextSession.
Proof. apply silent_wired. intros w. split; reflexivity. Qed.

Lemma unsubscribe_wired c ids : preserves wired (unsubscribe c ids).
Proof.
  intros w. unfold wired, unsubscribe, bind, emit, isOpen, ret. simpl.
  destruct (wsOpen w); simpl; (split; [reflexivity |]);
    eexists; (split; [rewrite <- ?app_assoc; reflexivity | reflexivity]).
Qed.

Lemma subscribe_wired c ids : preserves wired (subscribe c ids).
Proof.
  intros w. unfold wired, subscribe, bind, emit, isOpen, ret. simpl.
  destruct (wsOpen w); simpl; (split; [reflexivity |]);
    eexists; (split; [rewrite <- ?app_assoc; reflexivity | reflexivity]).
Qed.

Lemma onMessage_wired v env ent user msg :
  preserves wired (onMessageOf v env ent user msg).
Proof.
  destruct v; simpl;
    unfold Btc.onMessage, Btc.dispatch, Btc.broadcastCoSignedClaimTransaction,
      Liquid.onMessage, Liquid.dispatch, finishChainSwap, updateChainSwapStatus,
      claimSteps, createClaimTransaction, getBoltzPartialSignature,
      performChainSwapClaim, targetFee, setWitness0, newMusig, musigCall;
    cbv zeta;
    frame_in wired_preorder
      ltac:(first [ apply setStatus_wired | apply randomBytes_wired
                  | apply nextSession_wired | apply unsubscribe_wired
                  | apply emit_wired; reflexivity ]).
Qed.

(** X3.  Along any run of either listener, the frames that go out on the
    socket are exactly the unsubscribe requests, in order, when the socket
    is open, and none at all when it is not: a swap that fails while the
    socket is down is marked failed without the service being told. *)
Theorem frames_go_out_only_on_an_open_socket
    (v : Service) (ent : WithdrawChainSwapTransaction) (user : string)
    (msgs : list (Env * Message)) (w : World) :
  exists added,
    trace (deliver (listener v ent user) msgs w) = trace w ++ added /\
    sentFrames added =
      if wsOpen w
      then map (fun u => ("unsubscribe", fst u, snd u)) (unsubscribeCalls added)
      else [].
Proof.
  assert (D : forall ms w0, wired w0 (deliver (listener v ent user) ms w0)).
  { induction ms as [| [env msg] rest IH]; intros w0; simpl.
    - apply wired_preorder.
    - eapply (@PreOrder_Transitive _ _ wired_preorder);
        [apply (onMessage_wired v env ent user msg w0) | apply IH]. }
  destruct (D msgs w) as (_ & added & T & F).
  destruct (deliver_listenerEffect v ent user msgs w) as (_ & _ & added' & T' & S).
  assert (E : added' = added) by (apply (app_inv_head (trace w)); congruence).
  subst added'.
  exists added. split; [exact T |]. rewrite F.
  destruct (wsOpen w); [| reflexivity].
  clear - S. induction added as [| e rest IH]; [reflexivity |].
  inversion S as [| ? ? He Hrest]; subst. specialize (IH Hrest).
  destruct e; simpl; try exact IH; try (now elim He); now rewrite IH.
Qed.

(* ------------------------------------------------------------------ *)
(** ** The error path *)

Lemma pipelineEffect_writes_no_status env piped :
  Forall (pipelineEffect env) piped -> statusWrites piped = [].
Proof.
  induction 1 as [| e rest He _ IH]; [reflexivity |].
  destruct e; simpl in *; try contradiction; exact IH.
Qed.

(** Closes the goal once the run of a failed attempt is written out: the
    effects of the pipeline, then those of the [catch] blocks. *)
Ltac caught_after piped :=
  split; [reflexivity | split; [reflexivity |]];
  exists piped; eexists;
  split; [rewrite <- !app_assoc; reflexivity |];
  split; [reflexivity |];
  split; [first [reflexivity | discriminate] |];
  split; [first [assumption | constructor] |];
  unfold statusWrites, unsubscribeCalls, subscribeCalls, broadcasts in *;
  rewrite ?flat_map_app;
  repeat match goal with
         | H : flat_map _ piped = [] |- _ => rewrite H
         end;
  simpl; rewrite ?app_nil_r;
  repeat split; first [assumption | constructor].

(** C1.  When the claim pipeline throws while the claim event of a message
    for the tracked swap is handled (in either class, at whatever step:
    detection, construction, the exchange of partial signatures, the
    broadcast), the exception comes out of the inner [try] again, and the
    listener catches it and returns normally.  The status is then
    [CLAIM_FAILED].  What has been done is what the pipeline did before it
    threw, which is no status write, no subscription traffic and no
    broadcast of a transaction that does not carry the aggregated signature
    as its witness; then the write of [CLAIM_FAILED] (twice in the
    Bitcoin-side class, whose inner [catch] writes it too) and one
    unsubscribe for the swap id, sent if the socket is open; and nothing
    else.  (In the confidential-chain class an event without a transaction
    hex throws before the pipeline starts, with the same outcome.) *)
Theorem claim_failure_caught_by_listener
    (v : Service) (env : Env) (ent : WithdrawChainSwapTransaction) (user : string)
    (msg : Message) (a : UpdateArg) (w : World) (e : string) :
  tracked ent msg a ->
  arg_status a = claimEvent v ->
  fst (claimSteps v env ent (transactionHex a) w) = Throw e ->
  fst (onMessageOf v env ent user msg w) = Ok tt /\
  status (snd (onMessageOf v env ent user msg w)) = CLAIM_FAILED /\
  exists piped added,
    trace (snd (onMessageOf v env ent user msg w)) = trace w ++ added /\
    added = piped ++
            match v with
            | BitcoinClaimer => [EUpdateStatus (id ent) CLAIM_FAILED None]
            | LiquidClaimer => []
            end ++
            [ EUpdateStatus (id ent) CLAIM_FAILED None;
              EUnsubscribe "swap.update" [swapId ent] ] ++
            (if wsOpen w then [EWsSend "unsubscribe" "swap.update" [swapId ent]]
             else []) /\
    (match v with
     | BitcoinClaimer => True
     | LiquidClaimer => Liquid.noHex a = false
     end ->
     trace (snd (claimSteps v env ent (transactionHex a) w)) = trace w ++ piped) /\
    Forall (pipelineEffect env) piped /\
    statusWrites added = match v with
                         | BitcoinClaimer => [CLAIM_FAILED; CLAIM_FAILED]
                         | LiquidClaimer => [CLAIM_FAILED]
                         end /\
    unsubscribeCalls added = [("swap.update", [swapId ent])] /\
    subscribeCalls added = [] /\
    Forall (finalized env) (broadcasts added).
Proof.
  intros Htracked Hs Hthrow.
  rewrite (onMessage_tracked v env ent user msg a Htracked).
  destruct (claimSteps_quietly v env ent (transactionHex a) w)
    as [_ [piped [T F]]].
  destruct (claimSteps_listenerEffect v env ent (transactionHex a) w) as [O _].
  assert (Q : Forall (failureEffect env) piped).
  { eapply Forall_impl; [apply pipelineEffect_failureEffect | exact F]. }
  destruct (quiet_effects _ _ Q) as (U & S & B).
  pose proof (pipelineEffect_writes_no_status _ _ F) as W.
  destruct (claimSteps v env ent (transactionHex a) w) as [[[] | e'] w1] eqn:E;
    simpl in Hthrow, T, O; [discriminate Hthrow |].
  destruct v; simpl in Hs |- *.
  - unfold Btc.dispatch. rewrite Hs. simpl.
    unfold Btc.broadcastCoSignedClaimTransaction, tryCatch. rewrite E.
    unfold updateChainSwapStatus, unsubscribe, bind, emit, setStatus, isOpen, ret,
      throw. simpl. rewrite O, T.
    destruct (wsOpen w); simpl; caught_after piped.
  - unfold Liquid.dispatch. rewrite Hs. simpl.
    destruct (Liquid.noHex a) eqn:N.
    + unfold tryCatch, updateChainSwapStatus, unsubscribe, bind, emit, setStatus,
        isOpen, ret, throw. simpl.
      destruct (wsOpen w); simpl; caught_after (@nil Effect).
    + unfold tryCatch, bind. rewrite E.
      unfold updateChainSwapStatus, unsubscribe, bind, emit, setStatus, isOpen, ret,
        throw. simpl. rewrite O, T.
      destruct (wsOpen w); simpl; caught_after piped.
Qed.

(** Two failures: in the Bitcoin-side class the lockup transaction has no
    output for the tweaked key, so detection fails; in the confidential-chain
    class the service refuses the broadcast, the last step. *)
Lemma claim_failure_caught_by_listener_witness :
  (fst (onMessageOf BitcoinClaimer Scenario.env Scenario.entity "test-user-id"
          (Scenario.update "transaction.server.confirmed" (Some "stray"))
          (Scenario.world CLAIM_PENDING)) = Ok tt /\
   status (snd (onMessageOf BitcoinClaimer Scenario.env Scenario.entity
                  "test-user-id"
                  (Scenario.update "transaction.server.confirmed" (Some "stray"))
                  (Scenario.world CLAIM_PENDING))) = CLAIM_FAILED /\
   exists piped added,
     trace (snd (onMessageOf BitcoinClaimer Scenario.env Scenario.entity
                   "test-user-id"
                   (Scenario.update "transaction.server.confirmed" (Some "stray"))
                   (Scenario.world CLAIM_PENDING)))
       = trace (Scenario.world CLAIM_PENDING) ++ added /\
     added = piped ++
             [EUpdateStatus 1 CLAIM_FAILED None] ++
             [ EUpdateStatus 1 CLAIM_FAILED None;
               EUnsubscribe "swap.update" ["swap1"] ] ++
             [EWsSend "unsubscribe" "swap.update" ["swap1"]] /\
     (True ->
      trace (snd (claimSteps BitcoinClaimer Scenario.env Scenario.entity
                    (Some "stray") (Scenario.world CLAIM_PENDING)))
        = trace (Scenario.world CLAIM_PENDING) ++ piped) /\
     Forall (pipelineEffect Scenario.env) piped /\
     statusWrites added = [CLAIM_FAILED; CLAIM_FAILED] /\
     unsubscribeCalls added = [("swap.update", ["swap1"])] /\
     subscribeCalls added = [] /\
     Forall (finalized Scenario.env) (broadcasts added)) /\
  (fst (onMessageOf LiquidClaimer Scenario.refusing Scenario.entity "test-user-id"
          (Scenario.update "transaction.server.mempool" (Some "lockup"))
          (Scenario.world LOCKUP_CONFIRMED)) = Ok tt /\
   status (snd (onMessageOf LiquidClaimer Scenario.refusing Scenario.entity
                  "test-user-id"
                  (Scenario.update "transaction.server.mempool" (Some "lockup"))
                  (Scenario.world LOCKUP_CONFIRMED))) = CLAIM_FAILED /\
   exists piped added,
     trace (snd (onMessageOf LiquidClaimer Scenario.refusing Scenario.entity
                   "test-user-id"
                   (Scenario.update "transaction.server.mempool" (Some "lockup"))
                   (Scenario.world LOCKUP_CONFIRMED)))
       = trace (Scenario.world LOCKUP_CONFIRMED) ++ added /\
     added = piped ++
             [] ++
             [ EUpdateStatus 1 CLAIM_FAILED None;
               EUnsubscribe "swap.update" ["swap1"] ] ++
             [EWsSend "unsubscribe" "swap.update" ["swap1"]] /\
     (false = false ->
      trace (snd (claimSteps LiquidClaimer Scenario.refusing Scenario.entity
                    (Some "lockup") (Scenario.world LOCKUP_CONFIRMED)))
        = trace (Scenario.world LOCKUP_CONFIRMED) ++ piped) /\
     Forall (pipelineEffect Scenario.refusing) piped /\
     statusWrites added = [CLAIM_FAILED] /\
     unsubscribeCalls added = [("swap.update", ["swap1"])] /\
     subscribeCalls added = [] /\
     Forall (finalized Scenario.refusing) (broadcasts added)).
Proof.
  split.
  - apply (claim_failure_caught_by_listener BitcoinClaimer Scenario.env
             Scenario.entity "test-user-id"
             (Scenario.update "transaction.server.confirmed" (Some "stray"))
             {| arg_id := "swap1"; arg_status := "transaction.server.confirmed";
                arg_transaction :=
                  Some {| tx_id := Some "txid"; tx_hex := Some "stray" |} |}
             (Scenario.world CLAIM_PENDING)
             "No swap output found in lockup transaction").
    + repeat split; reflexivity.
    + reflexivity.
    + vm_compute. reflexivity.
  - apply (claim_failure_caught_by_listener LiquidClaimer Scenario.refusing
             Scenario.entity "test-user-id"
             (Scenario.update "transaction.server.mempool" (Some "lockup"))
             {| arg_id := "swap1"; arg_status := "transaction.server.mempool";
                arg_transaction :=
                  Some {| tx_id := Some "txid"; tx_hex := Some "lockup" |} |}
             (Scenario.world LOCKUP_CONFIRMED)
             "claimBTC").
    + repeat split; reflexivity.
    + reflexivity.
    + vm_compute. reflexivity.
Defined.

(* ------------------------------------------------------------------ *)
(** ** Failure events *)

Lemma failureStatus_cases s st :
  failureStatus s = Some st ->
  (s = "transaction.lockupFailed" /\ st = LOCKUP_FAILED) \/
  (s = "transaction.claimFailed" /\ st = CLAIM_FAILED) \/
  (s = "swap.expired" /\ st = LOCKUP_FAILED).
Proof.
  unfold failureStatus.
  destruct (String.eqb_spec s "transaction.lockupFailed") as [-> | _];
    [intros [= <-]; now left |].
  destruct (String.eqb_spec s "transaction.claimFailed") as [-> | _];
    [intros [= <-]; right; now left |].
  destruct (String.eqb_spec s "swap.expired") as [-> | _];
    [intros [= <-]; right; now right | discriminate].
Qed.

(** X4.  In either class, a lockup-failed, claim-failed or expiry event for
    the tracked swap writes the failed status of its case and issues one
    unsubscribe for the swap, whatever the status was before; nothing else
    happens.  Since the status before plays no part, a duplicate of the
    event unsubscribes once more. *)
Theorem failure_event_marks_failed_and_unsubscribes
    (v : Service) (env : Env) (ent : WithdrawChainSwapTransaction) (user : string)
    (msg : Message) (a : UpdateArg) (w : World) (st : ChainSwapTransactionStatus) :
  tracked ent msg a ->
  failureStatus (arg_status a) = Some st ->
  onMessageOf v env ent user msg w =
    (Ok tt,
     mkWorld st (wsOpen w) (rng w) (draws w) (sessions w)
       (trace w ++
        [EUpdateStatus (id ent) st None; EUnsubscribe "swap.update" [swapId ent]] ++
        (if wsOpen w then [EWsSend "unsubscribe" "swap.update" [swapId ent]]
         else []))) /\
  unsubscribeCalls
    (trace (deliver (listener v ent user) [(env, msg); (env, msg)] w))
    = unsubscribeCalls (trace w) ++
      [("swap.update", [swapId ent]); ("swap.update", [swapId ent])].
Proof.
  intros Ht Hs.
  assert (One : forall w0,
             onMessageOf v env ent user msg w0 =
               (Ok tt,
                mkWorld st (wsOpen w0) (rng w0) (draws w0) (sessions w0)
                  (trace w0 ++
                   [EUpdateStatus (id ent) st None;
                    EUnsubscribe "swap.update" [swapId ent]] ++
                   (if wsOpen w0
                    then [EWsSend "unsubscribe" "swap.update" [swapId ent]]
                    else [])))).
  { intros w0. rewrite (onMessage_tracked v env ent user msg a Ht).
    destruct (failureStatus_cases _ _ Hs) as [[E ->] | [[E ->] | [E ->]]];
      destruct v; simpl; unfold Btc.dispatch, Liquid.dispatch; rewrite E; simpl;
      unfold tryCatch, updateChainSwapStatus, unsubscribe, bind, emit, setStatus,
        isOpen, ret; simpl;
      destruct (wsOpen w0); simpl; rewrite <- ?app_assoc; reflexivity. }
  split; [apply One |].
  simpl. unfold listener. rewrite !One. simpl.
  rewrite !unsubscribeCalls_app.
  destruct (wsOpen w); simpl; now rewrite ?app_nil_r, <- ?app_assoc.
Qed.

Lemma failure_event_marks_failed_and_unsubscribes_witness :
  onMessageOf BitcoinClaimer Scenario.env Scenario.entity "test-user-id"
    (Scenario.update "transaction.lockupFailed" None)
    (Scenario.world LOCKUP_FAILED) =
    (Ok tt,
     mkWorld LOCKUP_FAILED true Scenario.entropy 0 0
       ([] ++
        [EUpdateStatus 1 LOCKUP_FAILED None; EUnsubscribe "swap.update" ["swap1"]] ++
        [EWsSend "unsubscribe" "swap.update" ["swap1"]])) /\
  unsubscribeCalls
    (trace (deliver (listener BitcoinClaimer Scenario.entity "test-user-id")
              [ (Scenario.env, Scenario.update "transaction.lockupFailed" None);
                (Scenario.env, Scenario.update "transaction.lockupFailed" None) ]
              (Scenario.world LOCKUP_FAILED)))
    = [] ++ [("swap.update", ["swap1"]); ("swap.update", ["swap1"])].
Proof.
  apply (failure_event_marks_failed_and_unsubscribes BitcoinClaimer Scenario.env
           Scenario.entity "test-user-id"
           (Scenario.update "transaction.lockupFailed" None)
           {| arg_id := "swap1"; arg_status := "transaction.lockupFailed";
              arg_transaction := Some {| tx_id := Some "txid"; tx_hex := None |} |}
           (Scenario.world LOCKUP_FAILED) LOCKUP_FAILED).
  - repeat split; reflexivity.
  - reflexivity.
Defined.

(* ------------------------------------------------------------------ *)
(** ** An event without a transaction *)

(** X5.  The confidential-chain class checks for the transaction hex
    before anything else: a mempool event for the tracked swap without one
    fails the swap and unsubscribes without making a session, drawing
    entropy or calling the service. *)
Theorem liquid_missing_hex_fails_before_any_session
    (env : Env) (ent : WithdrawChainSwapTransaction) (user : string)
    (msg : Message) (a : UpdateArg) (w : World) :
  tracked ent msg a ->
  arg_status a = "transaction.server.mempool" ->
  Liquid.noHex a = true ->
  Liquid.onMessage env ent user msg w =
    (Ok tt,
     mkWorld CLAIM_FAILED (wsOpen w) (rng w) (draws w) (sessions w)
       (trace w ++
        [EUpdateStatus (id ent) CLAIM_FAILED None;
         EUnsubscribe "swap.update" [swapId ent]] ++
        (if wsOpen w then [EWsSend "unsubscribe" "swap.update" [swapId ent]]
         else []))).
Proof.
  intros Ht Hs Hn.
  pose proof (onMessage_tracked LiquidClaimer env ent user msg a Ht) as L.
  simpl in L. rewrite L. unfold Liquid.dispatch. rewrite Hs. simpl. rewrite Hn.
  unfold tryCatch, updateChainSwapStatus, unsubscribe, bind, emit, setStatus,
    isOpen, ret, throw. simpl.
  destruct (wsOpen w); simpl; rewrite <- ?app_assoc; reflexivity.
Qed.

Lemma liquid_missing_hex_fails_before_any_session_witness :
  Liquid.onMessage Scenario.env Scenario.entity "test-user-id"
    (Scenario.update "transaction.server.mempool" None)
    (Scenario.world LOCKUP_CONFIRMED) =
    (Ok tt,
     mkWorld CLAIM_FAILED true Scenario.entropy 0 0
       ([] ++
        [EUpdateStatus 1 CLAIM_FAILED None; EUnsubscribe "swap.update" ["swap1"]] ++
        [EWsSend "unsubscribe" "swap.update" ["swap1"]])).
Proof.
  apply (liquid_missing_hex_fails_before_any_session Scenario.env Scenario.entity
           "test-user-id" (Scenario.update "transaction.server.mempool" None)
           {| arg_id := "swap1"; arg_status := "transaction.server.mempool";
              arg_transaction := Some {| tx_id := Some "txid"; tx_hex := None |} |}
           (Scenario.world LOCKUP_CONFIRMED)).
  - repeat split; reflexivity.
  - reflexivity.
  - reflexivity.
Defined.

Lemma serviceCalls_app a b : serviceCalls (a ++ b) = serviceCalls a ++ serviceCalls b.
Proof. unfold serviceCalls. apply filter_app. Qed.

Lemma sessionsMade_app a b : sessionsMade (a ++ b) = sessionsMade a ++ sessionsMade b.
Proof. unfold sessionsMade. apply filter_app. Qed.

(** X6.  The Bitcoin-side class has no such check: a confirmed event for the
    tracked swap without a transaction hex still constructs the claim
    session, which consumes one draw of entropy, before the attempt fails.
    The swap ends [CLAIM_FAILED] with one unsubscribe and the service is
    never called. *)
Theorem btc_missing_hex_fails_after_making_a_session
    (env : Env) (ent : WithdrawChainSwapTransaction) (user : string)
    (msg : Message) (a : UpdateArg) (w : World) :
  tracked ent msg a ->
  arg_status a = "transaction.server.confirmed" ->
  transactionHex a = None ->
  fst (Btc.onMessage env ent user msg w) = Ok tt /\
  status (snd (Btc.onMessage env ent user msg w)) = CLAIM_FAILED /\
  draws (snd (Btc.onMessage env ent user msg w)) = S (draws w) /\
  exists added,
    trace (snd (Btc.onMessage env ent user msg w)) = trace w ++ added /\
    sessionsMade added =
      [ENewMusig (sessions w) (seedAt w (draws w))
         [claimPublicKey ent; keyPair_publicKey env]] /\
    serviceCalls added = [] /\
    unsubscribeCalls added = [("swap.update", [swapId ent])].
Proof.
  intros Ht Hs Hh.
  pose proof (onMessage_tracked BitcoinClaimer env ent user msg a Ht) as B.
  simpl in B. rewrite B. unfold Btc.dispatch. rewrite Hs. simpl. rewrite Hh.
  unfold Btc.broadcastCoSignedClaimTransaction, claimSteps,
    createClaimTransaction, newMusig, musigCall, tryCatch, updateChainSwapStatus,
    unsubscribe, bind, orThrow, emit, setStatus, isOpen, randomBytes, nextSession,
    ret, throw, seedAt.
  simpl.
  destruct (deserializeSwapTree env (claimSwapTree ent)) as [tree |]; simpl;
    [destruct (musigAnswer env _ (TweakMusig tree)) as [key |]; simpl |];
    destruct (wsOpen w); simpl; rewrite <- ?app_assoc;
    repeat split; eexists; (split; [reflexivity |]); repeat split.
Qed.

Lemma btc_missing_hex_fails_after_making_a_session_witness :
  fst (Btc.onMessage Scenario.env Scenario.entity "test-user-id"
         (Scenario.update "transaction.server.confirmed" None)
         (Scenario.world CLAIM_PENDING)) = Ok tt /\
  status (snd (Btc.onMessage Scenario.env Scenario.entity "test-user-id"
                 (Scenario.update "transaction.server.confirmed" None)
                 (Scenario.world CLAIM_PENDING))) = CLAIM_FAILED /\
  draws (snd (Btc.onMessage Scenario.env Scenario.entity "test-user-id"
                (Scenario.update "transaction.server.confirmed" None)
                (Scenario.world CLAIM_PENDING))) = 1%nat /\
  exists added,
    trace (snd (Btc.onMessage Scenario.env Scenario.entity "test-user-id"
                  (Scenario.update "transaction.server.confirmed" None)
                  (Scenario.world CLAIM_PENDING)))
      = trace (Scenario.world CLAIM_PENDING) ++ added /\
    sessionsMade added =
      [ENewMusig 0 (seedAt (Scenario.world CLAIM_PENDING) 0)
         [Scenario.serverKey; Scenario.localKey]] /\
    serviceCalls added = [] /\
    unsubscribeCalls added = [("swap.update", ["swap1"])].
Proof.
  apply (btc_missing_hex_fails_after_making_a_session Scenario.env Scenario.entity
           "test-user-id" (Scenario.update "transaction.server.confirmed" None)
           {| arg_id := "swap1"; arg_status := "transaction.server.confirmed";
              arg_transaction := Some {| tx_id := Some "txid"; tx_hex := None |} |}
           (Scenario.world CLAIM_PENDING)).
  - repeat split; reflexivity.
  - reflexivity.
  - reflexivity.
Defined.

(** X7.  In the confidential-chain class the confirmed event has no case:
    a message for the tracked swap with status
    "transaction.server.confirmed" changes nothing, and in particular starts
    no claim. *)
Theorem liquid_ignores_the_confirmed_event
    (env : Env) (ent : WithdrawChainSwapTransaction) (user : string)
    (msg : Message) (a : UpdateArg) (w : World) :
  tracked ent msg a ->
  arg_status a = "transaction.server.confirmed" ->
  Liquid.onMessage env ent user msg w = (Ok tt, w).
Proof.
  intros Ht Hs.
  pose proof (onMessage_tracked LiquidClaimer env ent user msg a Ht) as L.
  simpl in L. rewrite L. unfold Liquid.dispatch. rewrite Hs. reflexivity.
Qed.

Lemma liquid_ignores_the_confirmed_event_witness :
  Liquid.onMessage Scenario.env Scenario.entity "test-user-id"
    (Scenario.update "transaction.server.confirmed" (Some "lockup"))
    (Scenario.world CLAIM_PENDING) = (Ok tt, Scenario.world CLAIM_PENDING).
Proof.
  apply (liquid_ignores_the_confirmed_event Scenario.env
           Scenario.entity "test-user-id"
           (Scenario.update "transaction.server.confirmed" (Some "lockup"))
           {| arg_id := "swap1"; arg_status := "transaction.server.confirmed";
              arg_transaction :=
                Some {| tx_id := Some "txid"; tx_hex := Some "lockup" |} |}
           (Scenario.world CLAIM_PENDING)).
  - repeat split; reflexivity.
  - reflexivity.
Defined.

(* ------------------------------------------------------------------ *)
(** ** What a successful attempt exchanged, signed and broadcast *)

(** X8.  In a claim attempt that succeeds, the service is called exactly
    three times, in this order: for its claim details, with the preimage
    and the unsigned claim transaction to have it co-signed, and for the
    broadcast.  The transaction that is broadcast is the one that was sent
    for co-signing: the same outputs and the same outpoint, with only the
    witness set. *)
Theorem broadcast_is_the_transaction_sent_for_cosigning
    (v : Service) (env : Env) (ent : WithdrawChainSwapTransaction)
    (hex : option string) (w w' : World) :
  claimSteps v env ent hex w = (Ok tt, w') ->
  exists added unsignedTx signedTx partialSig pubNonce claimNonce,
    trace w' = trace w ++ added /\
    serviceCalls added =
      [ EGetClaimDetails (claimDetailsEndpoint v) (swapId ent);
        EClaimChainSwap (swapId ent) (preimage ent) partialSig pubNonce 0%nat
          unsignedTx claimNonce;
        EClaimBTC signedTx ] /\
    outs signedTx = outs unsignedTx /\
    map outpoint (ins signedTx) = map outpoint (ins unsignedTx).
Proof.
  intros H.
  destruct (claimSteps_success_shape _ _ _ _ _ _ H)
    as (tree & key & h & lockupTx & out & dest & fee & unsignedTx & i & claimNonce
        & serverNonce & txHash & tree2 & partialSig & pubNonce2 & remoteNonce
        & remotePartial & sighash & signature & m & -> & _ & _ & _ & _ & _ & _
        & _ & I & _).
  eexists _, unsignedTx, _, partialSig, pubNonce2, claimNonce.
  split; [reflexivity |]. simpl.
  split; [reflexivity |]. simpl. rewrite I. split; reflexivity.
Qed.

Lemma broadcast_is_the_transaction_sent_for_cosigning_witness :
  exists added unsignedTx signedTx partialSig pubNonce claimNonce,
    trace (snd (claimSteps BitcoinClaimer Scenario.env Scenario.entity
                  (Some "lockup") (Scenario.world CLAIM_PENDING)))
      = trace (Scenario.world CLAIM_PENDING) ++ added /\
    serviceCalls added =
      [ EGetClaimDetails (claimDetailsEndpoint BitcoinClaimer)
          (swapId Scenario.entity);
        EClaimChainSwap (swapId Scenario.entity) (preimage Scenario.entity)
          partialSig pubNonce 0%nat unsignedTx claimNonce;
        EClaimBTC signedTx ] /\
    outs signedTx = outs unsignedTx /\
    map outpoint (ins signedTx) = map outpoint (ins unsignedTx).
Proof.
  apply (broadcast_is_the_transaction_sent_for_cosigning BitcoinClaimer
           Scenario.env Scenario.entity (Some "lockup")
           (Scenario.world CLAIM_PENDING)).
  vm_compute. reflexivity.
Defined.



(** X10.  A claim attempt that succeeds makes exactly two sessions, each
    over the remote key followed by the local key: the claim session over
    the service's claim key, and a second one over the service's lockup key.
    The second one is tweaked with the lockup tree, aggregates the nonce and
    is bound to the transaction hash the service gave in its claim details,
    signs, and is never completed: it neither adds a partial signature nor
    aggregates. *)
Theorem second_session_cosigns_the_service_claim
    (v : Service) (env : Env) (ent : WithdrawChainSwapTransaction)
    (hex : option string) (w w' : World) :
  claimSteps v env ent hex w = (Ok tt, w') ->
  sessions w' = S (S (sessions w)) /\
  exists added tree2 serverNonce transactionHash,
    trace w' = trace w ++ added /\
    sessionsMade added =
      [ ENewMusig (sessions w) (seedAt w (draws w))
          [claimPublicKey ent; keyPair_publicKey env];
        ENewMusig (S (sessions w)) (seedAt w (S (draws w)))
          [lockupPublicKey ent; keyPair_publicKey env] ] /\
    callsOn (S (sessions w)) added =
      [ TweakMusig tree2;
        AggregateNonces [(lockupPublicKey ent, serverNonce)];
        InitializeSession transactionHash;
        SignPartial; GetPublicNonce ] /\
    deserializeSwapTree env (lockupSwapTree ent) = Some tree2 /\
    claimDetailsOf v env (swapId ent) = Some (serverNonce, transactionHash).
Proof.
  intros H.
  destruct (claimSteps_success_shape _ _ _ _ _ _ H)
    as (tree & key & h & lockupTx & out & dest & fee & unsignedTx & i & claimNonce
        & serverNonce & txHash & tree2 & partialSig & pubNonce2 & remoteNonce
        & remotePartial & sighash & signature & m & -> & _ & _ & _ & _ & _ & _
        & _ & _ & _ & Hc & Ht2 & _).
  split; [reflexivity |].
  eexists _, tree2, serverNonce, txHash.
  split; [reflexivity |].
  simpl. rewrite ?Nat.eqb_refl, ?eqb_succ_l, ?eqb_succ_r. simpl.
  repeat split; assumption.
Qed.

Lemma second_session_cosigns_the_service_claim_witness :
  sessions (snd (claimSteps BitcoinClaimer Scenario.env Scenario.entity
                   (Some "lockup") (Scenario.world CLAIM_PENDING)))
    = S (S (sessions (Scenario.world CLAIM_PENDING))) /\
  exists added tree2 serverNonce transactionHash,
    trace (snd (claimSteps BitcoinClaimer Scenario.env Scenario.entity
                  (Some "lockup") (Scenario.world CLAIM_PENDING)))
      = trace (Scenario.world CLAIM_PENDING) ++ added /\
    sessionsMade added =
      [ ENewMusig (sessions (Scenario.world CLAIM_PENDING))
          (seedAt (Scenario.world CLAIM_PENDING)
             (draws (Scenario.world CLAIM_PENDING)))
          [claimPublicKey Scenario.entity; keyPair_publicKey Scenario.env];
        ENewMusig (S (sessions (Scenario.world CLAIM_PENDING)))
          (seedAt (Scenario.world CLAIM_PENDING)
             (S (draws (Scenario.world CLAIM_PENDING))))
          [lockupPublicKey Scenario.entity; keyPair_publicKey Scenario.env] ] /\
    callsOn (S (sessions (Scenario.world CLAIM_PENDING))) added =
      [ TweakMusig tree2;
        AggregateNonces [(lockupPublicKey Scenario.entity, serverNonce)];
        InitializeSession transactionHash;
        SignPartial; GetPublicNonce ] /\
    deserializeSwapTree Scenario.env (lockupSwapTree Scenario.entity) = Some tree2 /\
    claimDetailsOf BitcoinClaimer Scenario.env (swapId Scenario.entity)
      = Some (serverNonce, transactionHash).
Proof.
  apply (second_session_cosigns_the_service_claim BitcoinClaimer Scenario.env
           Scenario.entity (Some "lockup") (Scenario.world CLAIM_PENDING)).
  vm_compute. reflexivity.
Defined.

(** *** An attempt that fails while building *)

Lemma createClaimTransaction_sessionEffect v env pre ent hex :
  preserves (quietly sessionEffect) (createClaimTransaction v env pre ent hex).
Proof.
  assert (E : forall e, sessionEffect e -> preserves (quietly sessionEffect) (emit e))
    by (intros e He; now apply emit_quietly).
  unfold createClaimTransaction, targetFee, newMusig, musigCall.
  cbv zeta. frame; apply E; exact I.
Qed.

Lemma sessionEffect_no_service_call added :
  Forall sessionEffect added -> serviceCalls added = [].
Proof.
  induction 1 as [| e rest He _ IH]; [reflexivity |].
  destruct e; simpl in *; try contradiction; exact IH.
Qed.

(** X11.  When building the claim transaction throws (the tree does not
    deserialize, the lockup transaction does not parse, no output carries
    the key, the fee cannot be settled, the address is invalid), the attempt
    ends there with the same exception: the status is untouched, only
    session effects happened, and the service was not called, so the
    preimage was not handed over. *)
Theorem failed_claim_build_calls_no_service
    (v : Service) (env : Env) (ent : WithdrawChainSwapTransaction)
    (hex : option string) (w : World) (e : string) :
  fst (createClaimTransaction v env (preimage ent) ent hex w) = Throw e ->
  fst (claimSteps v env ent hex w) = Throw e /\
  status (snd (claimSteps v env ent hex w)) = status w /\
  exists added,
    trace (snd (claimSteps v env ent hex w)) = trace w ++ added /\
    Forall sessionEffect added /\
    serviceCalls added = [].
Proof.
  intros H.
  destruct (createClaimTransaction_sessionEffect v env (preimage ent) ent hex w)
    as (S & added & T & F).
  unfold claimSteps, bind.
  destruct (createClaimTransaction v env (preimage ent) ent hex w)
    as [[cd | e'] w1]; simpl in *; [discriminate H |].
  injection H as ->.
  repeat split; try assumption.
  exists added. repeat split; try assumption.
  now apply sessionEffect_no_service_call.
Qed.

Lemma failed_claim_build_calls_no_service_witness :
  fst (claimSteps BitcoinClaimer Scenario.env Scenario.entity (Some "stray")
         (Scenario.world CLAIM_PENDING))
    = Throw "No swap output found in lockup transaction" /\
  status (snd (claimSteps BitcoinClaimer Scenario.env Scenario.entity
                 (Some "stray") (Scenario.world CLAIM_PENDING)))
    = status (Scenario.world CLAIM_PENDING) /\
  exists added,
    trace (snd (claimSteps BitcoinClaimer Scenario.env Scenario.entity
                  (Some "stray") (Scenario.world CLAIM_PENDING)))
      = trace (Scenario.world CLAIM_PENDING) ++ added /\
    Forall sessionEffect added /\
    serviceCalls added = [].
Proof.
  apply (failed_claim_build_calls_no_service BitcoinClaimer Scenario.env
           Scenario.entity (Some "stray") (Scenario.world CLAIM_PENDING)).
  vm_compute. reflexivity.
Defined.

(* ------------------------------------------------------------------ *)
(** ** The detection probe *)

(** X12.  [testDetectSwap] tweaks a session whose key list is the local key
    twice (not the service's key and the local key), touches neither the
    status nor the service, and, when every output script can be printed,
    hands back what detection returns: a lockup transaction without an
    output for the key gives [undefined], where [createClaimTransaction]
    throws. *)
Theorem probe_returns_undefined_for_a_missing_output
    (env : Env) (toASM : bytes -> option string) (hex treeString : string)
    (w : World) (tree key : bytes) (tx : Transaction) :
  deserializeSwapTree env treeString = Some tree ->
  musigAnswer env
    {| mid := sessions w; seed := seedAt w (draws w);
       publicKeys := [keyPair_publicKey env; keyPair_publicKey env];
       called := [] |}
    (TweakMusig tree) = Some key ->
  Transaction_fromHex env hex = Some tx ->
  (forall o, In o (outs tx) -> toASM (script o) <> None) ->
  testDetectSwap env toASM hex treeString w =
    (Ok (detectSwap key tx),
     mkWorld (status w) (wsOpen w) (rng w) (S (draws w)) (S (sessions w))
       (trace w ++
        [ ENewMusig (sessions w) (seedAt w (draws w))
            [keyPair_publicKey env; keyPair_publicKey env];
          EMusig (sessions w) (TweakMusig tree) ])) /\
  ((forall o, In o (outs tx) -> embeddedKey (script o) <> Some key) ->
   fst (testDetectSwap env toASM hex treeString w) = Ok None).
Proof.
  intros Htree Hkey Htx Hasm.
  assert (A : forallb (fun out => match toASM (script out) with
                                  | Some _ => true
                                  | None => false
                                  end) (outs tx) = true).
  { apply forallb_forall. intros o Ho. specialize (Hasm o Ho).
    now destruct (toASM (script o)). }
  assert (E : testDetectSwap env toASM hex treeString w =
              (Ok (detectSwap key tx),
               mkWorld (status w) (wsOpen w) (rng w) (S (draws w)) (S (sessions w))
                 (trace w ++
                  [ ENewMusig (sessions w) (seedAt w (draws w))
                      [keyPair_publicKey env; keyPair_publicKey env];
                    EMusig (sessions w) (TweakMusig tree) ]))).
  { unfold testDetectSwap, newMusig, musigCall, bind, orThrow, emit, randomBytes,
      nextSession, ret, seedAt in *.
    simpl. rewrite Htree. simpl. rewrite Hkey. simpl. rewrite Htx. simpl.
    rewrite A. simpl. now rewrite <- app_assoc. }
  split; [exact E |].
  intros Hnone. rewrite E. simpl. f_equal.
  unfold detectSwap. now apply detectSwapFrom_none.
Qed.

Lemma probe_returns_undefined_for_a_missing_output_witness :
  testDetectSwap Scenario.env (fun _ => Some "asm") "stray" "claimTree"
    (Scenario.world CREATED) =
    (Ok (detectSwap Scenario.tweakedKey Scenario.strayTx),
     mkWorld CREATED true Scenario.entropy 1 1
       ([] ++
        [ ENewMusig 0 (seedAt (Scenario.world CREATED) 0)
            [Scenario.localKey; Scenario.localKey];
          EMusig 0 (TweakMusig (repeat x33 32)) ])) /\
  ((forall o, In o (outs Scenario.strayTx) ->
              embeddedKey (script o) <> Some Scenario.tweakedKey) ->
   fst (testDetectSwap Scenario.env (fun _ => Some "asm") "stray" "claimTree"
          (Scenario.world CREATED))
     = Ok None).
Proof.
  apply (probe_returns_undefined_for_a_missing_output Scenario.env
           (fun _ => Some "asm") "stray" "claimTree" (Scenario.world CREATED)
           (repeat x33 32) Scenario.tweakedKey Scenario.strayTx);
    try reflexivity.
  intros o _. discriminate.
Defined.

(* ------------------------------------------------------------------ *)
(** ** Starting a swap, past the guard *)

Lemma subscribeCalls_app a b :
  subscribeCalls (a ++ b) = subscribeCalls a ++ subscribeCalls b.
Proof. unfold subscribeCalls. apply flat_map_app. Qed.

Lemma listens_app a b : listens (a ++ b) = listens a ++ listens b.
Proof. unfold listens. apply flat_map_app. Qed.

Lemma guard_passed addr amount :
  (addr =? "") || (amount <=? 0)%Z = false -> addr <> "" /\ 0 < amount.
Proof.
  intros H. apply orb_false_iff in H. destruct H as [Ha Hz].
  split; [now apply String.eqb_neq | now apply Z.leb_gt].
Qed.

(** X13.  When the Bitcoin-side entry point returns, it has asked the
    service for the fee rate and the fee schedule and then for one swap,
    from "L-BTC" to "BTC", with the local key as both refund and claim key.
    The amount to lock is the one [calculateLockupSend] computes from the
    requested amount and the schedule; the entity records the fee rate, the
    miner fees and, as the service fee, the lockup amount less the amount
    and the miner fees (all in the arithmetic of doubles).  The preimage
    hash sent is the hash of the 32-byte preimage recorded in the entity,
    which is a fresh draw.  It has then subscribed once, to the id the
    service returned, and registered one listener for it. *)
Theorem btc_start_registers_one_swap_and_subscribes
    (env : Env) (addr : string) (amount : Z) (w w' : World)
    (cs : ChainSwapResponseDto) (e : WithdrawChainSwapTransaction) :
  Btc.startBoltzChainSwapWithListeners env addr amount w = (Ok (cs, e), w') ->
  exists fees,
    getChainSwapFee env = Some fees /\
    getNetworkFee env "BTC" = Some (feeRate e) /\
    addr <> "" /\ 0 < amount /\ cs_id cs <> "" /\
    swapId e = cs_id cs /\
    userAddress e = addr /\
    preimage e = seedAt w (draws w) /\
    minerFees e = jsAdd (minerFees_server fees) (minerFees_user_claim fees) /\
    boltzFee e
      = jsSub (jsSub (lockupAmountFor amount (minerFees e) (percentage fees)) amount)
          (minerFees e) /\
    w' = mkWorld (status w) (wsOpen w) (rng w) (S (draws w)) (sessions w)
           (trace w ++
            [ EGetNetworkFee "BTC"; EGetChainSwapFee;
              ECreateChainSwap
                {| from := "L-BTC"; to := "BTC";
                   userLockAmount :=
                     lockupAmountFor amount (minerFees e) (percentage fees);
                   dto_userAddress := addr;
                   refundPublicKey := keyPair_publicKey env;
                   dto_claimPublicKey := keyPair_publicKey env;
                   preimageHash := sha256 env (preimage e) |};
              ESubscribe "swap.update" [swapId e] ] ++
            (if wsOpen w then [EWsSend "subscribe" "swap.update" [swapId e]]
             else []) ++
            [EListen (swapId e)]).
Proof.
  intros H.
  unfold Btc.startBoltzChainSwapWithListeners, Btc.calculateLockupSend,
    Btc.handleChainSwapStatusUpdates, subscribe, bind, orThrow, emit, isOpen,
    randomBytes, ret, throw in H.
  destruct ((addr =? "") || (amount <=? 0)%Z) eqn:G; [discriminate H |].
  destruct (guard_passed _ _ G) as [Ha Hz].
  simpl in H.
  destruct (getNetworkFee env "BTC") as [rate |]; simpl in H; [| discriminate H].
  destruct (getChainSwapFee env) as [fees |] eqn:F; simpl in H; [| discriminate H].
  destruct (createChainSwap env _) as [[cs0 |] |]; simpl in H; try discriminate H.
  destruct (String.eqb_spec (cs_id cs0) "") as [| Hid]; [discriminate H |].
  exists fees.
  destruct (wsOpen w) eqn:O; simpl in H; injection H as <- <- <-; simpl;
    unfold seedAt;
    repeat split; try assumption;
    rewrite ?O; simpl; rewrite <- ?app_assoc; reflexivity.
Qed.

Lemma btc_start_registers_one_swap_and_subscribes_witness :
  exists fees,
    getChainSwapFee Scenario.env = Some fees /\
    getNetworkFee Scenario.env "BTC" = Some (feeRate Scenario.entity) /\
    "bcrt1qz2npm9j8uap52v8usgt08maqvtu7yumh0rfydq" <> "" /\
    0 < 25000 /\ cs_id Scenario.response <> "" /\
    swapId Scenario.entity = cs_id Scenario.response /\
    userAddress Scenario.entity = "bcrt1qz2npm9j8uap52v8usgt08maqvtu7yumh0rfydq" /\
    preimage Scenario.entity = seedAt (Scenario.world CREATED) 0 /\
    minerFees Scenario.entity
      = jsAdd (minerFees_server fees) (minerFees_user_claim fees) /\
    boltzFee Scenario.entity
      = jsSub (jsSub (lockupAmountFor 25000 (minerFees Scenario.entity)
                        (percentage fees)) 25000)
          (minerFees Scenario.entity) /\
    snd (Btc.startBoltzChainSwapWithListeners Scenario.env
           "bcrt1qz2npm9j8uap52v8usgt08maqvtu7yumh0rfydq" 25000
           (Scenario.world CREATED))
      = mkWorld CREATED true Scenario.entropy 1 0
           ([] ++
            [ EGetNetworkFee "BTC"; EGetChainSwapFee;
              ECreateChainSwap
                {| from := "L-BTC"; to := "BTC";
                   userLockAmount :=
                     lockupAmountFor 25000 (minerFees Scenario.entity)
                       (percentage fees);
                   dto_userAddress := "bcrt1qz2npm9j8uap52v8usgt08maqvtu7yumh0rfydq";
                   refundPublicKey := keyPair_publicKey Scenario.env;
                   dto_claimPublicKey := keyPair_publicKey Scenario.env;
                   preimageHash :=
                     sha256 Scenario.env (preimage Scenario.entity) |};
              ESubscribe "swap.update" [swapId Scenario.entity] ] ++
            [EWsSend "subscribe" "swap.update" [swapId Scenario.entity]] ++
            [EListen (swapId Scenario.entity)]).
Proof.
  apply (btc_start_registers_one_swap_and_subscribes Scenario.env
           "bcrt1qz2npm9j8uap52v8usgt08maqvtu7yumh0rfydq" 25000
           (Scenario.world CREATED)
           (snd (Btc.startBoltzChainSwapWithListeners Scenario.env
                   "bcrt1qz2npm9j8uap52v8usgt08maqvtu7yumh0rfydq" 25000
                   (Scenario.world CREATED)))
           Scenario.response Scenario.entity).
  vm_compute. reflexivity.
Defined.

(** X14.  When an entry point that installs a listener throws, whatever the
    reason (the guard, a fee request, the creation request, a response
    without an id), it has neither subscribed nor registered a listener, and
    nothing went out on the socket. *)
Theorem failed_start_leaves_no_subscription
    (v : Service) (env : Env) (addr : string) (amount : Z) (w : World) (e : string) :
  fst (match v with
       | BitcoinClaimer => Btc.startBoltzChainSwapWithListeners
       | LiquidClaimer => Liquid.startBoltzChainSwapWithListeners
       end env addr amount w) = Throw e ->
  exists added,
    trace (snd (match v with
                | BitcoinClaimer => Btc.startBoltzChainSwapWithListeners
                | LiquidClaimer => Liquid.startBoltzChainSwapWithListeners
                end env addr amount w)) = trace w ++ added /\
    subscribeCalls added = [] /\
    listens added = [] /\
    sentFrames added = [].
Proof.
  intros H.
  destruct v.
  - destruct (Btc.startBoltzChainSwapWithListeners env addr amount w)
      as [r w'] eqn:E.
    unfold Btc.startBoltzChainSwapWithListeners, Btc.calculateLockupSend,
      Btc.handleChainSwapStatusUpdates, subscribe, bind, orThrow, emit, isOpen,
      randomBytes, ret, throw in E.
    simpl in E, H. crack E.
    all: injection E as <- <-; try discriminate H.
    all: simpl; rewrite <- ?app_assoc;
      first [ exists []; split; [now rewrite app_nil_r | repeat split]
            | eexists; split; [reflexivity | repeat split] ].
  - destruct (Liquid.startBoltzChainSwapWithListeners env addr amount w)
      as [r w'] eqn:E.
    unfold Liquid.startBoltzChainSwapWithListeners,
      Liquid.handleChainSwapStatusUpdates, subscribe, bind, orThrow, emit, isOpen,
      randomBytes, ret, throw in E.
    simpl in E, H. crack E.
    all: injection E as <- <-; try discriminate H.
    all: simpl; rewrite <- ?app_assoc;
      first [ exists []; split; [now rewrite app_nil_r | repeat split]
            | eexists; split; [reflexivity | repeat split] ].
Qed.

(** The service answers without a swap. *)
Lemma failed_start_leaves_no_subscription_witness :
  exists added,
    trace (snd (Liquid.startBoltzChainSwapWithListeners
                  {| keyPair_publicKey := Scenario.localKey;
                     Transaction_fromHex := Transaction_fromHex Scenario.env;
                     getHash := getHash Scenario.env;
                     toOutputScript := toOutputScript Scenario.env;
                     fromConfidential_blindingKey :=
                       fromConfidential_blindingKey Scenario.env;
                     hashForWitnessV1 := hashForWitnessV1 Scenario.env;
                     sha256 := sha256 Scenario.env;
                     deserializeSwapTree := deserializeSwapTree Scenario.env;
                     musigAnswer := musigAnswer Scenario.env;
                     settleFee := settleFee Scenario.env;
                     getNetworkFee := getNetworkFee Scenario.env;
                     getChainSwapFee := getChainSwapFee Scenario.env;
                     createChainSwap := fun _ => Some None;
                     getChainSwapClaimDetails :=
                       getChainSwapClaimDetails Scenario.env;
                     getSwapClaimDetails := getSwapClaimDetails Scenario.env;
                     claimChainSwap := claimChainSwap Scenario.env;
                     claimBTC := claimBTC Scenario.env |}
                  "el1qaddr" 25000 (Scenario.world CREATED)))
      = trace (Scenario.world CREATED) ++ added /\
    subscribeCalls added = [] /\
    listens added = [] /\
    sentFrames added = [].
Proof.
  apply (failed_start_leaves_no_subscription LiquidClaimer _ "el1qaddr" 25000
           (Scenario.world CREATED) "Error creating Chain Swap").
  reflexivity.
Defined.

(** X15.  The entry points of the confidential-chain class ask the service
    to lock the requested amount itself and ask for no fees.
    [startBoltzChainSwap] hands back the service's response and nothing
    else: the preimage it drew, whose hash it sent, is not kept, and no
    subscription or listener is made. *)
Theorem liquid_start_locks_the_requested_amount
    (env : Env) (addr : string) (amount : Z) (w w' : World)
    (cs : ChainSwapResponseDto) :
  Liquid.startBoltzChainSwap env addr amount w = (Ok cs, w') ->
  addr <> "" /\ 0 < amount /\ cs_id cs <> "" /\
  w' = mkWorld (status w) (wsOpen w) (rng w) (S (draws w)) (sessions w)
         (trace w ++
          [ ECreateChainSwap
              {| from := "L-BTC"; to := "BTC";
                 userLockAmount := amount;
                 dto_userAddress := addr;
                 refundPublicKey := keyPair_publicKey env;
                 dto_claimPublicKey := keyPair_publicKey env;
                 preimageHash := sha256 env (seedAt w (draws w)) |} ]) /\
  createChainSwap env
    {| from := "L-BTC"; to := "BTC";
       userLockAmount := amount;
       dto_userAddress := addr;
       refundPublicKey := keyPair_publicKey env;
       dto_claimPublicKey := keyPair_publicKey env;
       preimageHash := sha256 env (seedAt w (draws w)) |} = Some (Some cs).
Proof.
  intros H.
  unfold Liquid.startBoltzChainSwap, bind, orThrow, emit, randomBytes, ret, throw
    in H.
  destruct ((addr =? "") || (amount <=? 0)%Z) eqn:G; [discriminate H |].
  destruct (guard_passed _ _ G) as [Ha Hz].
  simpl in H. fold (seedAt w (draws w)) in H.
  destruct (createChainSwap env _) as [[cs0 |] |] eqn:C; simpl in H;
    try discriminate H.
  destruct (String.eqb_spec (cs_id cs0) "") as [| Hid]; [discriminate H |].
  injection H as <- <-.
  repeat split; assumption.
Qed.

Lemma liquid_start_locks_the_requested_amount_witness :
  "el1qaddr" <> "" /\ 0 < 25000 /\ cs_id Scenario.response <> "" /\
  snd (Liquid.startBoltzChainSwap Scenario.env "el1qaddr" 25000
         (Scenario.world CREATED))
    = mkWorld CREATED true Scenario.entropy 1 0
         ([] ++
          [ ECreateChainSwap
              {| from := "L-BTC"; to := "BTC";
                 userLockAmount := 25000;
                 dto_userAddress := "el1qaddr";
                 refundPublicKey := keyPair_publicKey Scenario.env;
                 dto_claimPublicKey := keyPair_publicKey Scenario.env;
                 preimageHash :=
                   sha256 Scenario.env (seedAt (Scenario.world CREATED) 0) |} ]) /\
  createChainSwap Scenario.env
    {| from := "L-BTC"; to := "BTC";
       userLockAmount := 25000;
       dto_userAddress := "el1qaddr";
       refundPublicKey := keyPair_publicKey Scenario.env;
       dto_claimPublicKey := keyPair_publicKey Scenario.env;
       preimageHash := sha256 Scenario.env (seedAt (Scenario.world CREATED) 0) |}
    = Some (Some Scenario.response).
Proof.
  apply (liquid_start_locks_the_requested_amount Scenario.env "el1qaddr" 25000
           (Scenario.world CREATED)
           (snd (Liquid.startBoltzChainSwap Scenario.env "el1qaddr" 25000
                   (Scenario.world CREATED)))
           Scenario.response).
  vm_compute. reflexivity.
Defined.

(* ------------------------------------------------------------------ *)
(** ** The websocket client *)

Lemma client_step_keeps_socket parse c o :
  (WsClient.isConnected c = true -> WsClient.ws c <> None) ->
  exists c',
    WsClient.step parse c o = Some c' /\
    (WsClient.isConnected c' = true -> WsClient.ws c' <> None) /\
    (forall f, In f (WsClient.sent c') -> In f (WsClient.sent c) \/
               WsClient.isWebSocketConnected c = Some true).
Proof.
  intros I.
  assert (R : forall op ch ids,
             exists c', WsClient.request op ch ids c = Some c' /\
               (WsClient.isConnected c' = true -> WsClient.ws c' <> None) /\
               (forall f, In f (WsClient.sent c') -> In f (WsClient.sent c) \/
                          WsClient.isWebSocketConnected c = Some true)).
  { intros op ch ids. unfold WsClient.request, WsClient.isWebSocketConnected.
    destruct (WsClient.isConnected c) eqn:Ec.
    - destruct (WsClient.ws c) as [[] |] eqn:Ew;
        try (eexists; split; [reflexivity | split; [simpl; congruence | auto]]).
      now elim (I eq_refl).
    - eexists; split; [reflexivity | split; [congruence | auto]]. }
  destruct o; simpl; try apply R.
  all: eexists; split; [reflexivity |].
  all: unfold WsClient.connect, WsClient.disconnect, WsClient.onOpen,
         WsClient.onSocketMessage, WsClient.onError, WsClient.onClose.
  all: destruct (WsClient.ws c) as [[] |] eqn:Ew; simpl;
         try destruct (parse data); simpl; rewrite ?Ew;
         split; try congruence; auto.
Qed.

(** X17.  Starting from a newly constructed client, no sequence of method
    calls and socket events makes [subscribe], [unsubscribe] or
    [isWebSocketConnected] read the state of an undefined socket: every
    sequence runs through, and the client never claims a connection without
    having a socket. *)
Theorem client_never_reads_an_undefined_socket
    (parse : string -> option Parsed) (os : list WsClient.Op) :
  exists c,
    WsClient.run parse WsClient.fresh os = Some c /\
    (WsClient.isConnected c = true -> WsClient.ws c <> None) /\
    WsClient.isWebSocketConnected c <> None.
Proof.
  assert (G : forall os c0,
             (WsClient.isConnected c0 = true -> WsClient.ws c0 <> None) ->
             exists c, WsClient.run parse c0 os = Some c /\
                       (WsClient.isConnected c = true -> WsClient.ws c <> None)).
  { clear os. induction os as [| o rest IH]; intros c0 I; simpl.
    - exists c0. now split.
    - destruct (client_step_keeps_socket parse c0 o I) as (c1 & -> & I1 & _).
      apply IH, I1. }
  destruct (G os WsClient.fresh) as (c & Hrun & I); [discriminate |].
  exists c. repeat split; try assumption.
  unfold WsClient.isWebSocketConnected.
  destruct (WsClient.isConnected c); [| discriminate].
  destruct (WsClient.ws c); [discriminate | now elim (I eq_refl)].
Qed.

(** X18.  After [disconnect()], whatever state the client was in, it does
    not report a connection, and any number of [subscribe] and
    [unsubscribe] calls leave it exactly as [disconnect()] left it: no frame
    is sent. *)
Theorem nothing_is_sent_after_disconnect
    (parse : string -> option Parsed) (c c' : WsClient.Client)
    (os : list WsClient.Op) :
  Forall (fun o => WsClient.isRequest o = true) os ->
  WsClient.run parse (WsClient.disconnect c) os = Some c' ->
  c' = WsClient.disconnect c /\
  WsClient.sent c' = WsClient.sent c /\
  WsClient.isWebSocketConnected (WsClient.disconnect c) <> Some true.
Proof.
  intros Hos Hrun.
  assert (N : WsClient.isWebSocketConnected (WsClient.disconnect c) <> Some true).
  { unfold WsClient.isWebSocketConnected, WsClient.disconnect.
    destruct (WsClient.ws c) as [[] |] eqn:Ew; simpl; rewrite ?Ew;
      destruct (WsClient.isConnected c); simpl; discriminate. }
  assert (S : WsClient.sent (WsClient.disconnect c) = WsClient.sent c).
  { unfold WsClient.disconnect. destruct (WsClient.ws c) as [[] |]; reflexivity. }
  assert (E : c' = WsClient.disconnect c).
  { remember (WsClient.disconnect c) as d eqn:Hd. clear Hd S.
    induction Hos as [| o rest Ho _ IH]; simpl in Hrun.
    - now injection Hrun as <-.
    - assert (St : WsClient.step parse d o = Some d \/
                   WsClient.step parse d o = None).
      { destruct o; try discriminate Ho; simpl;
          unfold WsClient.subscribe, WsClient.unsubscribe, WsClient.request;
          destruct (WsClient.isWebSocketConnected d) as [[] |];
          [now elim N | now left | now right
          | now elim N | now left | now right]. }
      destruct St as [St | St]; rewrite St in Hrun;
        [now apply IH | discriminate Hrun]. }
  subst c'. repeat split; assumption.
Qed.

Lemma nothing_is_sent_after_disconnect_witness :
  {| WsClient.ws := Some WsClient.CLOSING; WsClient.isConnected := false;
     WsClient.sent := [("subscribe", "swap.update", ["swap1"])];
     WsClient.published := [] |}
    = WsClient.disconnect
        {| WsClient.ws := Some WsClient.OPEN; WsClient.isConnected := true;
           WsClient.sent := [("subscribe", "swap.update", ["swap1"])];
           WsClient.published := [] |} /\
  WsClient.sent
    {| WsClient.ws := Some WsClient.CLOSING; WsClient.isConnected := false;
       WsClient.sent := [("subscribe", "swap.update", ["swap1"])];
       WsClient.published := [] |}
    = [("subscribe", "swap.update", ["swap1"])] /\
  WsClient.isWebSocketConnected
    (WsClient.disconnect
       {| WsClient.ws := Some WsClient.OPEN; WsClient.isConnected := true;
          WsClient.sent := [("subscribe", "swap.update", ["swap1"])];
          WsClient.published := [] |}) <> Some true.
Proof.
  apply (nothing_is_sent_after_disconnect (fun _ => None)
           {| WsClient.ws := Some WsClient.OPEN; WsClient.isConnected := true;
              WsClient.sent := [("subscribe", "swap.update", ["swap1"])];
              WsClient.published := [] |}
           _
           [ WsClient.Unsubscribe "swap.update" ["swap1"];
             WsClient.Subscribe "swap.update" ["swap2"] ]).
  - repeat constructor.
  - reflexivity.
Defined.

(** X19.  [disconnect()] only acts on an open socket.  Called while the
    socket is still connecting it changes nothing, so the connection is not
    cancelled: once the socket opens, the client reports a connection and
    sends the frames it is asked for. *)
Theorem disconnect_while_connecting_does_not_cancel
    (c : WsClient.Client) (channel : string) (ids : list string) :
  WsClient.ws c = Some WsClient.CONNECTING ->
  WsClient.disconnect c = c /\
  WsClient.isWebSocketConnected (WsClient.onOpen (WsClient.disconnect c))
    = Some true /\
  exists c',
    WsClient.subscribe channel ids (WsClient.onOpen (WsClient.disconnect c))
      = Some c' /\
    WsClient.sent c' = WsClient.sent c ++ [("subscribe", channel, ids)].
Proof.
  intros H.
  unfold WsClient.subscribe, WsClient.request, WsClient.isWebSocketConnected,
    WsClient.onOpen, WsClient.disconnect.
  rewrite H. simpl. rewrite H. simpl.
  repeat split. eexists. split; reflexivity.
Qed.

Lemma disconnect_while_connecting_does_not_cancel_witness :
  WsClient.disconnect (WsClient.connect WsClient.fresh)
    = WsClient.connect WsClient.fresh /\
  WsClient.isWebSocketConnected
    (WsClient.onOpen (WsClient.disconnect (WsClient.connect WsClient.fresh)))
    = Some true /\
  exists c',
    WsClient.subscribe "swap.update" ["swap1"]
      (WsClient.onOpen (WsClient.disconnect (WsClient.connect WsClient.fresh)))
      = Some c' /\
    WsClient.sent c'
      = WsClient.sent (WsClient.connect WsClient.fresh) ++
        [("subscribe", "swap.update", ["swap1"])].
Proof.
  apply (disconnect_while_connecting_does_not_cancel
           (WsClient.connect WsClient.fresh) "swap.update" ["swap1"]).
  reflexivity.
Defined.
